(** * extcap.c: discovery, capability queries and session lifecycle

    A shallow embedding of [extcap.c] (the non-WIN32 build: every
    [#ifdef WIN32] takes its [#else] branch).  The C code talks to the
    operating system (directory scan, process spawning, the temporary
    directory) and keeps one piece of global state, the hash table
    [ifaces].  Here the global state is an explicit record [world] that is
    threaded through every function, and the operating system is a record
    [os_t] of oracles handed to each call, so that two calls may see two
    different directories. *)

From stdpp Require Import base option list gmap strings.
From Stdlib Require Import ZArith.

Open Scope Z_scope.
Open Scope string_scope.
Open Scope list_scope.

(** ** Data of the C program *)

(** [GPid]; on this build an [int].  [(GPid)-1] is the "no process" value. *)
Definition GPid := Z.
Definition GPid_invalid : GPid := (-1)%Z.

(** Modelled from the spec: the interface type enum lives in
    capture_ifinfo.h, which is not part of the sources at hand.  The code
    only ever compares the tag against [IF_EXTCAP]; one native tag stands
    for all the others. *)
Inductive interface_type := IF_WIRED | IF_EXTCAP.

Global Instance interface_type_eq_dec : EqDecision interface_type.
Proof. solve_decision. Defined.

(** A C pointer to a string: [None] is NULL. *)
Definition cstr := option string.

(** [char **err_str]: [None] is a NULL [err_str]; [Some s] is a valid
    pointer whose target currently holds [s]. *)
Definition err_ptr := option cstr.

(** A pointer to a string on the heap, where the code hands the pointer
    itself around and frees it: NULL, a string that is live, or a string
    that has been [g_free]d (the pointer dangles). *)
Inductive gstr := g_null | g_live (s : string) | g_freed.

(** Modelled from the spec: [interface_options] is declared in
    capture_opts.h, outside the sources at hand.  The fields are those
    that extcap.c reads or writes (the spec's InterfaceOptions).
    [extcap_args] is the [GHashTable] of extra arguments in the order
    [g_hash_table_foreach] visits it; its keys and values are pointers
    the table owns, and no two entries of a session share a table. *)
Record interface_options := mk_interface_options {
  name : string;
  if_type : interface_type;
  extcap : string;
  extcap_fifo : cstr;
  extcap_pid : GPid;
  extcap_args : option (list (gstr * gstr))
}.

(** Modelled from the spec: [capture_options] (capture_opts.h), the
    session; only its [GArray *ifaces] matters here. *)
Record capture_options := mk_capture_options {
  opts_ifaces : list interface_options
}.

(** Modelled from the spec: [if_info_t] (the spec's InterfaceRecord),
    with the fields that [interfaces_cb] fills in. *)
Record if_info_t := mk_if_info {
  info_name : string;
  info_friendly_name : string;
  info_type : interface_type;
  info_extcap : string
}.

(** Modelled from the spec: the records handed back by the sentence
    parser (extcap_parser.h), with the fields that extcap.c reads. *)
Record extcap_interface := mk_extcap_interface {
  call : string;
  display : string
}.

Record extcap_dlt := mk_extcap_dlt {
  number : Z;
  dlt_name : string;
  dlt_display : string
}.

(** Modelled from the spec: [data_link_info_t] and [if_capabilities_t]
    (the spec's CaptureCapabilities), with the fields that [dlt_cb]
    fills in. *)
Record data_link_info_t := mk_data_link_info {
  dlt : Z;
  dli_name : string;
  description : string
}.

Record if_capabilities_t := mk_if_capabilities {
  can_set_rfmon : bool;
  data_link_types : list data_link_info_t
}.

(** ** The world *)

Inductive file_kind := RegularFile | Fifo.

(** Everything a call can change.
    - [ifaces]: the static [GHashTable *ifaces] ([None] while it is NULL);
    - [fs]: the files that exist, with their kind;
    - [tempfiles]: how many times [create_tempfile] was called;
    - [spawned]: the argv of every process started, oldest first;
    - [closed_pids]: the arguments of [g_spawn_close_pid], oldest first;
    - [unlink_failures]: how many [ws_unlink] calls hit a missing file. *)
Record world := mk_world {
  ifaces : option (gmap string string);
  fs : gmap string file_kind;
  tempfiles : nat;
  spawned : list (list cstr);
  closed_pids : list GPid;
  unlink_failures : nat
}.

Definition set_ifaces (t : option (gmap string string)) (w : world) : world :=
  mk_world t (fs w) (tempfiles w) (spawned w) (closed_pids w) (unlink_failures w).

Definition set_fs (f : gmap string file_kind) (w : world) : world :=
  mk_world (ifaces w) f (tempfiles w) (spawned w) (closed_pids w) (unlink_failures w).

Definition log_spawn (argv : list cstr) (w : world) : world :=
  mk_world (ifaces w) (fs w) (tempfiles w) (spawned w ++ [argv]) (closed_pids w)
           (unlink_failures w).

(** What the operating system answers.
    - [os_extcap_dir]: [get_extcap_dir()];
    - [os_dir]: [g_dir_open] and the successive [g_dir_read_name]s
      ([None] when the directory cannot be opened);
    - [os_spawn_sync argv]: status, exit status and standard output of
      [g_spawn_sync]; a helper answers the same way every time it is run
      with the same argv;
    - [os_spawn_async argv]: the child's pid, [None] when the spawn fails;
    - [os_create_tempfile n]: descriptor and name returned by the [n]-th
      call of [create_tempfile];
    - [os_mkfifo_ok p]: whether [mkfifo] can create [p] once nothing is in
      its way. *)
Record os_t := mk_os {
  os_extcap_dir : string;
  os_dir : option (list string);
  os_spawn_sync : list cstr -> bool * Z * string;
  os_spawn_async : list cstr -> option GPid;
  os_create_tempfile : nat -> Z * cstr;
  os_mkfifo_ok : string -> bool
}.

(** ** The interface registry *)

(** [g_hash_table_lookup(ifaces, ifname)]: NULL for a NULL table (GLib's
    [g_return_val_if_fail]) and for a missing key.  Every value stored is
    the result of a [g_strdup] of a helper path, never NULL. *)
Definition g_hash_table_lookup (t : option (gmap string string)) (key : string)
  : cstr :=
  match t with
  | None => None
  | Some m => m !! key
  end.

Definition extcap_if_exists (ifname : cstr) (w : world) : bool :=
  match ifname with
  | Some n =>
      match ifaces w with
      | Some m =>
          if (0 <? size m)%nat
          then (if g_hash_table_lookup (Some m) n is Some _ then true else false)
          else false
      | None => false
      end
  | None => false
  end.

Definition extcap_if_exists_for_extcap (ifname : cstr) (extcap : string)
    (w : world) : bool :=
  if extcap_if_exists ifname w then
    match ifname with
    | Some n =>
        match g_hash_table_lookup (ifaces w) n with
        | Some entry => if String.eqb entry extcap then true else false
        | None => false
        end
    | None => false
    end
  else false.

Definition extcap_if_executable (ifname : cstr) (w : world) : cstr :=
  if extcap_if_exists ifname w then
    match ifname with
    | Some n => g_hash_table_lookup (ifaces w) n
    | None => None
    end
  else None.

Definition extcap_if_cleanup (w : world) : world :=
  set_ifaces (Some ∅) w.

(** With a NULL table both GLib calls return at their argument check. *)
Definition extcap_if_add (ifname extcap : string) (w : world) : world :=
  match ifaces w with
  | None => w
  | Some m =>
      match m !! ifname with
      | None => set_ifaces (Some (<[ifname := extcap]> m)) w
      | Some _ => w
      end
  end.

(** ** Files *)

Definition file_exists (path : cstr) (w : world) : bool :=
  match path with
  | Some p => if fs w !! p is Some _ then true else false
  | None => false
  end.

(** [ws_unlink]: removes an existing file; on a missing one the call fails
    (ENOENT) and the failure is counted.  Other causes of failure
    (permissions) are not modelled.  The C code drops the return value. *)
Definition ws_unlink (p : string) (w : world) : world :=
  match fs w !! p with
  | Some _ => set_fs (delete p (fs w)) w
  | None =>
      mk_world (ifaces w) (fs w) (tempfiles w) (spawned w) (closed_pids w)
               (S (unlink_failures w))
  end.

(** [create_tempfile] is wsutil code outside the sources at hand: its
    answer comes from the oracle.  A non-negative descriptor comes with a
    regular file of the returned name. *)
Definition create_tempfile (os : os_t) (w : world) : Z * cstr * world :=
  let '(fd, temp_name) := os_create_tempfile os (tempfiles w) in
  let f :=
    match temp_name with
    | Some p => if (0 <=? fd)%Z then <[p := RegularFile]> (fs w) else fs w
    | None => fs w
    end in
  (fd, temp_name,
   mk_world (ifaces w) f (S (tempfiles w)) (spawned w) (closed_pids w)
            (unlink_failures w)).

(** [mkfifo(path, 0600)]: 0 and a new FIFO, or -1 and nothing. *)
Definition mkfifo (os : os_t) (path : cstr) (w : world) : Z * world :=
  match path with
  | None => ((-1)%Z, w)
  | Some p =>
      match fs w !! p with
      | Some _ => ((-1)%Z, w)
      | None =>
          if os_mkfifo_ok os p
          then (0%Z, set_fs (<[p := Fifo]> (fs w)) w)
          else ((-1)%Z, w)
      end
  end.

(** [g_spawn_close_pid]: does nothing on this platform; the call is
    recorded. *)
Definition g_spawn_close_pid (pid : GPid) (w : world) : world :=
  mk_world (ifaces w) (fs w) (tempfiles w) (spawned w) (closed_pids w ++ [pid])
           (unlink_failures w).

(** ** The program *)

(** The sentence tokenizer and parser (extcap_parser.c) and the protocol
    flags (extcap.h) are outside the sources at hand: the program is
    written against this interface. *)
Class extcap_parser := {
  extcap_token_sentence : Type;
  extcap_arg : Type;
  extcap_tokenize_sentences : string -> extcap_token_sentence;
  extcap_parse_interfaces : extcap_token_sentence -> list extcap_interface;
  extcap_parse_dlts : extcap_token_sentence -> list extcap_dlt;
  extcap_parse_args : extcap_token_sentence -> list extcap_arg;
  EXTCAP_ARGUMENT_CONFIG : string;
  EXTCAP_ARGUMENT_LIST_INTERFACES : string;
  EXTCAP_ARGUMENT_INTERFACE : string;
  EXTCAP_ARGUMENT_LIST_DLTS : string;
  EXTCAP_ARGUMENT_RUN_CAPTURE : string;
  EXTCAP_ARGUMENT_RUN_PIPE : string
}.

Section Extcap.

Context {P : extcap_parser}.

(** [if (err_str) *err_str = NULL;] *)
Definition clear_err (err_str : err_ptr) : err_ptr :=
  match err_str with
  | Some _ => Some None
  | None => None
  end.

(** [extcap_cb_t]: the callback gets the helper's path and output, the
    target of [data] and of [err_str], and answers whether to keep going. *)
Definition extcap_cb_t (D : Type) : Type :=
  string -> string -> D -> err_ptr -> world -> bool * D * err_ptr * world.

(** [g_string_printf(extcap_string, "%s/%s", dirname, file)]. *)
Definition extcap_path (dirname file : string) : string :=
  dirname +:+ "/" +:+ file.

(** The [while] loop of [extcap_foreach] over the names still to be read
    from the directory. *)
Fixpoint extcap_foreach_loop {D : Type} (os : os_t) (dirname : string)
    (argc : nat) (args : list cstr) (cb : extcap_cb_t D) (ifname : cstr)
    (files : list string) (keep_going : bool)
    (cb_data : D) (err_str : err_ptr) (w : world) : D * err_ptr * world :=
  match files with
  | [] => (cb_data, err_str, w)
  | file :: rest =>
      if keep_going then
        let extcap := extcap_path dirname file in
        if extcap_if_exists ifname w
           && negb (extcap_if_exists_for_extcap ifname extcap w)
        then
          extcap_foreach_loop os dirname argc args cb ifname rest keep_going
            cb_data err_str w
        else
          let argv := Some extcap :: take argc args ++ [None] in
          let '(status, exit_status, command_output) := os_spawn_sync os argv in
          let w := log_spawn argv w in
          if status && (exit_status =? 0)%Z then
            let '(keep_going, cb_data, err_str, w) :=
              cb extcap command_output cb_data err_str w in
            extcap_foreach_loop os dirname argc args cb ifname rest keep_going
              cb_data err_str w
          else
            extcap_foreach_loop os dirname argc args cb ifname rest keep_going
              cb_data err_str w
      else (cb_data, err_str, w)
  end.

Definition extcap_foreach {D : Type} (os : os_t) (argc : nat) (args : list cstr)
    (cb : extcap_cb_t D) (cb_data : D) (err_str : err_ptr) (ifname : cstr)
    (w : world) : D * err_ptr * world :=
  let dirname := os_extcap_dir os in
  match os_dir os with
  | Some files =>
      extcap_foreach_loop os dirname argc args cb ifname files true
        cb_data err_str w
  | None => (cb_data, err_str, w)
  end.

(** The first [while] loop of [dlt_cb]. *)
Fixpoint dlt_cb_loop (dlt_iter : list extcap_dlt)
    (linktype_list : list data_link_info_t) : list data_link_info_t :=
  match dlt_iter with
  | [] => linktype_list
  | d :: next_dlt =>
      let data_link_info :=
        mk_data_link_info (number d) (dlt_name d) (dlt_display d) in
      dlt_cb_loop next_dlt (linktype_list ++ [data_link_info])
  end.

(** [data] is [None] for a NULL pointer, otherwise the [caps] variable of
    the caller that it points to. *)
Definition dlt_cb : extcap_cb_t (option (option if_capabilities_t)) :=
  fun extcap output data err_str w =>
    let tokens := extcap_tokenize_sentences output in
    let dlts := extcap_parse_dlts tokens in
    let linktype_list := dlt_cb_loop dlts [] in
    match linktype_list, data with
    | _ :: _, Some _ =>
        (false, Some (Some (mk_if_capabilities false linktype_list)), err_str, w)
    | _, _ =>
        let err_str :=
          match err_str with
          | Some _ => Some (Some "Extcap returned no DLTs")
          | None => None
          end in
        (false, data, err_str, w)
    end.

Definition extcap_get_if_dlts (os : os_t) (ifname : cstr) (err_str : err_ptr)
    (w : world) : option if_capabilities_t * err_ptr * world :=
  let caps : option if_capabilities_t := None in
  let err_str :=
    match ifname with
    | Some _ => clear_err err_str
    | None => err_str
    end in
  if extcap_if_exists ifname w then
    let argv := [Some EXTCAP_ARGUMENT_LIST_DLTS;
                 Some EXTCAP_ARGUMENT_INTERFACE; ifname] in
    let err_str := clear_err err_str in
    let '(data, err_str, w) :=
      extcap_foreach os 3 argv dlt_cb (Some caps) err_str ifname w in
    (default caps data, err_str, w)
  else (caps, err_str, w).

(** The [while] loop of [interfaces_cb]. *)
Fixpoint interfaces_cb_loop (extcap : string) (int_iter : list extcap_interface)
    (il : list if_info_t) (w : world) : list if_info_t * world :=
  match int_iter with
  | [] => (il, w)
  | i :: next_interface =>
      if extcap_if_exists (Some (call i)) w then
        interfaces_cb_loop extcap next_interface il w
      else
        let if_info := mk_if_info (call i) (display i) IF_EXTCAP extcap in
        interfaces_cb_loop extcap next_interface (il ++ [if_info])
          (extcap_if_add (call i) extcap w)
  end.

Definition interfaces_cb : extcap_cb_t (list if_info_t) :=
  fun extcap output il err_str w =>
    let tokens := extcap_tokenize_sentences output in
    let interfaces := extcap_parse_interfaces tokens in
    let '(il, w) := interfaces_cb_loop extcap interfaces il w in
    (true, il, err_str, w).

Definition extcap_interface_list (os : os_t) (err_str : err_ptr) (w : world)
  : list if_info_t * err_ptr * world :=
  let ret : list if_info_t := [] in
  let err_str := clear_err err_str in
  let w := extcap_if_cleanup w in
  let argv := [Some EXTCAP_ARGUMENT_LIST_INTERFACES] in
  let err_str := clear_err err_str in
  extcap_foreach os 1 argv interfaces_cb ret err_str None w.

(** A [GList] of [GList]s: the element appended is the pointer
    [arguments], NULL (the empty list) included. *)
Definition search_cb : extcap_cb_t (list (list extcap_arg)) :=
  fun extcap output il err_str w =>
    let tokens := extcap_tokenize_sentences output in
    let arguments := extcap_parse_args tokens in
    (true, il ++ [arguments], err_str, w).

(** The local [err_str] is a NULL pointer; the function has no other
    output than the list. *)
Definition extcap_get_if_configuration (os : os_t) (ifname : cstr) (w : world)
  : list (list extcap_arg) * world :=
  let ret : list (list extcap_arg) := [] in
  let err_str : err_ptr := None in
  if extcap_if_exists ifname w then
    let argv := [Some EXTCAP_ARGUMENT_CONFIG;
                 Some EXTCAP_ARGUMENT_INTERFACE; ifname; None] in
    let '(ret, _, w) :=
      extcap_foreach os 4 argv search_cb ret err_str ifname w in
    (ret, w)
  else (ret, w).

(** The body of the [for] loop of [extcap_cleanup] on the local copy
    [interface_opts] of one array element: the copy as it is when the
    iteration ends, and the world. *)
Definition extcap_cleanup_entry (interface_opts : interface_options) (w : world)
  : interface_options * world :=
  if decide (if_type interface_opts ≠ IF_EXTCAP) then (interface_opts, w)
  else
    let '(interface_opts, w) :=
      match extcap_fifo interface_opts with
      | Some p =>
          if file_exists (Some p) w then
            (mk_interface_options (name interface_opts) (if_type interface_opts)
               (extcap interface_opts) None (extcap_pid interface_opts)
               (extcap_args interface_opts),
             ws_unlink p w)
          else (interface_opts, w)
      | None => (interface_opts, w)
      end in
    if decide (extcap_pid interface_opts ≠ GPid_invalid) then
      (mk_interface_options (name interface_opts) (if_type interface_opts)
         (extcap interface_opts) (extcap_fifo interface_opts) GPid_invalid
         (extcap_args interface_opts),
       g_spawn_close_pid (extcap_pid interface_opts) w)
    else (interface_opts, w).

(** [interface_opts = g_array_index(...)] copies the element into the
    local struct; nothing in the loop stores the copy back, so the array of
    [capture_opts] is the same after every iteration. *)
Fixpoint extcap_cleanup_loop (fuel icnt : nat) (capture_opts : capture_options)
    (w : world) : capture_options * world :=
  match fuel with
  | O => (capture_opts, w)
  | S fuel =>
      match opts_ifaces capture_opts !! icnt with
      | None => (capture_opts, w)
      | Some interface_opts =>
          let '(_, w) := extcap_cleanup_entry interface_opts w in
          extcap_cleanup_loop fuel (S icnt) capture_opts w
      end
  end.

Definition extcap_cleanup (capture_opts : capture_options) (w : world)
  : capture_options * world :=
  extcap_cleanup_loop (length (opts_ifaces capture_opts)) 0 capture_opts w.

(** [g_strdup]: a fresh live copy, NULL for NULL. *)
Definition g_strdup (s : cstr) : gstr :=
  match s with
  | Some s => g_live s
  | None => g_null
  end.

(** Reading the string behind a pointer; there is nothing to read behind
    a dangling one. *)
Definition read_gstr (p : gstr) : option cstr :=
  match p with
  | g_null => Some None
  | g_live s => Some (Some s)
  | g_freed => None
  end.

(** The argv as [g_spawn_async] reads it off the pointer array. *)
Definition read_argv (args : list gstr) : option (list cstr) :=
  mapM read_gstr args.

(** [g_free]: NULL stays NULL, any other pointer dangles afterwards. *)
Definition g_free (p : gstr) : gstr :=
  match p with
  | g_null => g_null
  | _ => g_freed
  end.

(** The callback adds the table's own key and value pointers, not
    copies, to the pointer array. *)
Definition extcap_arg_cb (key value : gstr) (args : list gstr) : list gstr :=
  match key with
  | g_null => args
  | _ =>
      let args := args ++ [key] in
      match value with
      | g_null => args
      | _ => args ++ [value]
      end
  end.

(** [g_hash_table_foreach(interface_opts.extcap_args, extcap_arg_cb, args)]. *)
Definition g_hash_table_foreach_arg_cb (t : list (gstr * gstr)) (args : list gstr)
  : list gstr :=
  foldl (fun args kv => extcap_arg_cb kv.1 kv.2 args) args t.

(** What [g_ptr_array_foreach(args, g_free)] does to a table whose
    pointers [extcap_arg_cb] has put into [args]: the key of every entry
    with a non-NULL key is freed, and its value with it; an entry with a
    NULL key contributed nothing and keeps its value. *)
Definition free_arg_pair (kv : gstr * gstr) : gstr * gstr :=
  match kv.1 with
  | g_null => kv
  | _ => (g_freed, g_free kv.2)
  end.

Definition free_args (t : list (gstr * gstr)) : list (gstr * gstr) :=
  map free_arg_pair t.

(** [*fifo] goes in and comes out next to the result. *)
Definition extcap_create_pipe (os : os_t) (fifo : cstr) (w : world)
  : bool * cstr * world :=
  let '(fd, temp_name, w) := create_tempfile os w in
  if (fd =? 0)%Z then (false, fifo, w)
  else
    (* ws_close(fd) *)
    let w :=
      match temp_name with
      | Some p => if file_exists temp_name w then ws_unlink p w else w
      | None => w
      end in
    let '(r, w) := mkfifo os temp_name w in
    let fifo := if (r =? 0)%Z then temp_name else fifo in
    (true, fifo, w).

(** The [for] loop of [extcaps_init_initerfaces].  [add_arg] stores a
    [g_strdup] of its argument, [extcap_arg_cb] the table's own pointers;
    [g_spawn_async] reads every string of the array, and there is no
    result ([None]) when one of them has been freed; then every element of
    the array is freed, the strings of the table among them.
    [g_array_remove_index] followed by [g_array_insert_val] at the same
    index replaces element [i]. *)
Fixpoint extcaps_init_loop (os : os_t) (fuel i : nat)
    (capture_opts : capture_options) (w : world)
  : option (bool * capture_options * world) :=
  match fuel with
  | O => Some (true, capture_opts, w)
  | S fuel =>
      match opts_ifaces capture_opts !! i with
      | None => Some (true, capture_opts, w)
      | Some interface_opts =>
          if decide (if_type interface_opts ≠ IF_EXTCAP) then
            extcaps_init_loop os fuel (S i) capture_opts w
          else
            let '(ok, fifo, w) :=
              extcap_create_pipe os (extcap_fifo interface_opts) w in
            if negb ok then Some (false, capture_opts, w)
            else
              let args : list gstr :=
                [g_strdup (Some (extcap interface_opts));
                 g_strdup (Some EXTCAP_ARGUMENT_RUN_CAPTURE);
                 g_strdup (Some EXTCAP_ARGUMENT_INTERFACE);
                 g_strdup (Some (name interface_opts));
                 g_strdup (Some EXTCAP_ARGUMENT_RUN_PIPE);
                 g_strdup fifo] in
              let args :=
                match extcap_args interface_opts with
                | Some t => g_hash_table_foreach_arg_cb t args
                | None => args
                end in
              let args := args ++ [g_strdup None] in
              match read_argv args with
              | None => None
              | Some argv =>
                  let pid : GPid := default 0%Z (os_spawn_async os argv) in
                  let w := log_spawn argv w in
                  (* g_ptr_array_foreach(args, (GFunc)g_free, NULL) *)
                  let interface_opts :=
                    mk_interface_options (name interface_opts)
                      (if_type interface_opts) (extcap interface_opts) fifo pid
                      (free_args <$> extcap_args interface_opts) in
                  extcaps_init_loop os fuel (S i)
                    (mk_capture_options
                       (<[i := interface_opts]> (opts_ifaces capture_opts)))
                    w
              end
      end
  end.

Definition extcaps_init_initerfaces (os : os_t) (capture_opts : capture_options)
    (w : world) : option (bool * capture_options * world) :=
  extcaps_init_loop os (length (opts_ifaces capture_opts)) 0 capture_opts w.

End Extcap.

(** ** Vocabulary of the statements *)

(** The owner the registry records for a name, if any. *)
Definition registered (w : world) (n : string) : cstr :=
  g_hash_table_lookup (ifaces w) n.

(** The argv of a "list interfaces" invocation of the helper [file]. *)
Definition list_interfaces_argv `{P : extcap_parser} (os : os_t) (file : string)
  : list cstr :=
  [Some (extcap_path (os_extcap_dir os) file);
   Some EXTCAP_ARGUMENT_LIST_INTERFACES; None].

(** What one directory scan advertises: for every helper that could be
    run with exit status 0, in directory order, its interfaces in the
    order the parser emits them, each paired with the helper's path. *)
Definition helper_adverts `{P : extcap_parser} (os : os_t) (file : string)
  : list (string * string) :=
  let path := extcap_path (os_extcap_dir os) file in
  let '(status, exit_status, output) :=
    os_spawn_sync os (list_interfaces_argv os file) in
  if status && (exit_status =? 0)%Z then
    map (fun i => (call i, path))
        (extcap_parse_interfaces (extcap_tokenize_sentences output))
  else [].

Definition adverts `{P : extcap_parser} (os : os_t) : list (string * string) :=
  match os_dir os with
  | Some files => concat (map (helper_adverts os) files)
  | None => []
  end.

(** The path paired with the first occurrence of [n]. *)
Fixpoint first_owner (n : string) (l : list (string * string)) : cstr :=
  match l with
  | [] => None
  | (n', p) :: l => if String.eqb n' n then Some p else first_owner n l
  end.

(** The helper [file], asked for its interfaces, was started and exited
    with status 0. *)
Definition helper_ok `{P : extcap_parser} (os : os_t) (file : string) : bool :=
  let '(status, exit_status, _) :=
    os_spawn_sync os (list_interfaces_argv os file) in
  status && (exit_status =? 0)%Z.

(** The same directory scan as a fold over the registry alone: what
    [interfaces_cb] does to the result list and to the table, helper after
    helper.  The loops of the program are shown equal to it. *)
Definition claim_interfaces (path : string) (ifs : list extcap_interface)
    (st : list if_info_t * option (gmap string string))
  : list if_info_t * option (gmap string string) :=
  let '(il, w) :=
    interfaces_cb_loop path ifs st.1
      (mk_world st.2 ∅ 0 [] [] 0) in
  (il, ifaces w).

Definition scan_step `{P : extcap_parser} (os : os_t)
    (st : list if_info_t * option (gmap string string)) (file : string)
  : list if_info_t * option (gmap string string) :=
  let '(status, exit_status, output) :=
    os_spawn_sync os (list_interfaces_argv os file) in
  if status && (exit_status =? 0)%Z then
    claim_interfaces (extcap_path (os_extcap_dir os) file)
      (extcap_parse_interfaces (extcap_tokenize_sentences output)) st
  else st.

Definition scan `{P : extcap_parser} (os : os_t) (files : list string)
    (st : list if_info_t * option (gmap string string))
  : list if_info_t * option (gmap string string) :=
  foldl (scan_step os) st files.

(** The operating system with another directory listing. *)
Definition with_dir (d : option (list string)) (os : os_t) : os_t :=
  mk_os (os_extcap_dir os) d (os_spawn_sync os) (os_spawn_async os)
        (os_create_tempfile os) (os_mkfifo_ok os).

(** The names a scan of the helper directory reads (none when the
    directory cannot be opened). *)
Definition dir_entries (os : os_t) : list string := default [] (os_dir os).

(** The processes a capability query starts: what it adds to the log. *)
Definition spawned_by_dlts `{P : extcap_parser} (os : os_t) (n : string)
    (err_str : err_ptr) (w : world) : list (list cstr) :=
  drop (length (spawned w))
       (spawned (extcap_get_if_dlts os (Some n) err_str w).2).

Definition spawned_by_configuration `{P : extcap_parser} (os : os_t) (n : string)
    (w : world) : list (list cstr) :=
  drop (length (spawned w))
       (spawned (extcap_get_if_configuration os (Some n) w).2).

(** The argv the two queries build for the helper [owner]. *)
Definition dlts_argv `{P : extcap_parser} (owner n : string) : list cstr :=
  [Some owner; Some EXTCAP_ARGUMENT_LIST_DLTS; Some EXTCAP_ARGUMENT_INTERFACE;
   Some n; None].

Definition configuration_argv `{P : extcap_parser} (owner n : string) : list cstr :=
  [Some owner; Some EXTCAP_ARGUMENT_CONFIG; Some EXTCAP_ARGUMENT_INTERFACE;
   Some n; None; None].

(** "Exactly one helper was started, and it is [owner]". *)
Definition one_helper_spawned (new : list (list cstr)) (owner : string) : Prop :=
  exists argv : list cstr, new = [argv] /\ head argv = Some (Some owner).

(** "The query reported a failure": for the link-type query a NULL result
    together with a message in [*err_str]; for the configuration query,
    whose only output is the list, the empty list it returns when it has
    nothing to report. *)
Definition dlts_reports_failure
    (r : option if_capabilities_t * err_ptr) : Prop :=
  r.1 = None /\ exists msg : string, r.2 = Some (Some msg).

Definition configuration_reports_failure {A : Type} (ret : list (list A)) : Prop :=
  ret = [].

(** One iteration of the loop of [extcap_cleanup], as seen from the
    world. *)
Definition cleanup_step (w : world) (interface_opts : interface_options) : world :=
  (extcap_cleanup_entry interface_opts w).2.

(** ** A small parser and operating system to run the program on *)

Fixpoint words_from (cur s : string) : list string :=
  match s with
  | EmptyString => if cur is EmptyString then [] else [cur]
  | String c s =>
      if Ascii.eqb c (Ascii.ascii_of_nat 32) then
        (if cur is EmptyString then words_from "" s else cur :: words_from "" s)
      else words_from (cur +:+ String c "") s
  end.

Definition demo_parser : extcap_parser := {|
  extcap_token_sentence := list string;
  extcap_arg := string;
  extcap_tokenize_sentences := words_from "";
  extcap_parse_interfaces := map (fun s => mk_extcap_interface s s);
  extcap_parse_dlts :=
    map (fun s => mk_extcap_dlt (Z.of_nat (String.length s)) s s);
  extcap_parse_args := fun l => l;
  EXTCAP_ARGUMENT_CONFIG := "--extcap-config";
  EXTCAP_ARGUMENT_LIST_INTERFACES := "--extcap-interfaces";
  EXTCAP_ARGUMENT_INTERFACE := "--extcap-interface";
  EXTCAP_ARGUMENT_LIST_DLTS := "--extcap-dlts";
  EXTCAP_ARGUMENT_RUN_CAPTURE := "--capture";
  EXTCAP_ARGUMENT_RUN_PIPE := "--fifo"
|}.

(** Helper [A] lists two interfaces, [B] two more (one of them under a
    name [A] uses as well), [C] exits with status 1, and [D] cannot be
    started.  Asked for link types or configuration, [A] prints nothing. *)
Definition demo_spawn_sync (argv : list cstr) : bool * Z * string :=
  match argv with
  | Some prog :: Some verb :: _ =>
      if String.eqb prog "/x/A" then
        if String.eqb verb "--extcap-interfaces"
        then (true, 0%Z, "eth-ext usb-ext")
        else (true, 0%Z, "")
      else if String.eqb prog "/x/B" then
        if String.eqb verb "--extcap-interfaces"
        then (true, 0%Z, "eth-ext ble-ext")
        else (true, 0%Z, "EN10MB")
      else if String.eqb prog "/x/C" then (true, 1%Z, "eth-ext")
      else (false, 0%Z, "")
  | _ => (false, 0%Z, "")
  end.

(** [create_tempfile] answers with descriptor [3 + n] and a name ending in
    [n] primes; [mkfifo] fails exactly on the names in [bad]. *)
Fixpoint primes (n : nat) : string :=
  match n with
  | O => ""
  | S n => "'" +:+ primes n
  end.

Definition demo_os (dir : option (list string)) (bad : list string) : os_t :=
  mk_os "/x" dir demo_spawn_sync
    (fun _ => Some 4242%Z)
    (fun n => ((3 + Z.of_nat n)%Z, Some ("/tmp/wireshark_extcap" +:+ primes n)))
    (fun p => negb (bool_decide (p ∈ bad))).

Definition world0 : world := mk_world None ∅ 0 [] [] 0.

(** The world after one discovery pass over the directory [A; B; C; D]. *)
Definition world_AB : world :=
  (@extcap_interface_list demo_parser
     (demo_os (Some ["A"; "B"; "C"; "D"]) []) None world0).2.

(** A session with one helper-backed interface whose channel and process
    are live, and the world it lives in. *)
Definition eth_running : interface_options :=
  mk_interface_options "eth-ext" IF_EXTCAP "/x/A"
    (Some "/tmp/wireshark_extcap") 4242%Z None.

Definition world_running : world :=
  mk_world None {["/tmp/wireshark_extcap" := Fifo]} 1 [] [] 0.

(** A session about to be started: a native interface and two
    helper-backed ones. *)
Definition eth_configured : interface_options :=
  mk_interface_options "eth-ext" IF_EXTCAP "/x/A" None GPid_invalid None.

Definition ble_configured : interface_options :=
  mk_interface_options "ble-ext" IF_EXTCAP "/x/B" None GPid_invalid
    (Some [(g_live "--channel", g_live "37"); (g_live "--verbose", g_null)]).

Definition en0_configured : interface_options :=
  mk_interface_options "en0" IF_WIRED "" None GPid_invalid None.

(** An operating system whose second [create_tempfile] returns 0. *)
Definition os_second_tempfile_fails : os_t :=
  mk_os "/x" None demo_spawn_sync (fun _ => Some 4242%Z)
    (fun n => if (n =? 1)%nat then (0%Z, None)
              else (3%Z, Some ("/tmp/wireshark_extcap" +:+ primes n)))
    (fun _ => true).

(** ** Vocabulary of the further properties *)

(** The record [interfaces_cb] builds for the interface [i] of the helper
    [path]. *)
Definition advert_record (path : string) (i : extcap_interface) : if_info_t :=
  mk_if_info (call i) (display i) IF_EXTCAP path.

(** Every record the helpers of the directory offer, in directory order
    and then in the order the parser emits them. *)
Definition helper_records `{P : extcap_parser} (os : os_t) (file : string)
  : list if_info_t :=
  let path := extcap_path (os_extcap_dir os) file in
  let '(status, exit_status, output) :=
    os_spawn_sync os (list_interfaces_argv os file) in
  if status && (exit_status =? 0)%Z then
    map (advert_record path)
        (extcap_parse_interfaces (extcap_tokenize_sentences output))
  else [].

Definition advert_records `{P : extcap_parser} (os : os_t) : list if_info_t :=
  concat (map (helper_records os) (dir_entries os)).

(** The records whose name is not in [seen] and was not met earlier in
    the list. *)
Fixpoint first_records (seen : gset string) (l : list if_info_t)
  : list if_info_t :=
  match l with
  | [] => []
  | r :: l =>
      if bool_decide (info_name r ∈ seen) then first_records seen l
      else r :: first_records ({[info_name r]} ∪ seen) l
  end.

(** The link-type record [dlt_cb] builds from a parsed one. *)
Definition data_link_info_of (d : extcap_dlt) : data_link_info_t :=
  mk_data_link_info (number d) (dlt_name d) (dlt_display d).

(** What one pair of the extra arguments adds to the pointer array. *)
Definition arg_pair_words (kv : gstr * gstr) : list gstr :=
  match kv with
  | (g_null, _) => []
  | (k, g_null) => [k]
  | (k, v) => [k; v]
  end.

(** The pointer array [extcaps_init_initerfaces] builds for the entry [o]
    (as it is in the array before the call) and the channel path [fifo],
    and the argv [g_spawn_async] reads off it. *)
Definition run_capture_args `{P : extcap_parser} (o : interface_options)
    (fifo : cstr) : list gstr :=
  let args : list gstr :=
    [g_live (extcap o); g_live EXTCAP_ARGUMENT_RUN_CAPTURE;
     g_live EXTCAP_ARGUMENT_INTERFACE; g_live (name o);
     g_live EXTCAP_ARGUMENT_RUN_PIPE; g_strdup fifo] in
  let args :=
    match extcap_args o with
    | Some t => g_hash_table_foreach_arg_cb t args
    | None => args
    end in
  args ++ [g_null].

Definition run_capture_argv `{P : extcap_parser} (o : interface_options)
    (fifo : cstr) : option (list cstr) :=
  read_argv (run_capture_args o fifo).

(** No string of the entry's table of extra arguments has been freed. *)
Definition args_live (o : interface_options) : Prop :=
  forall t, extcap_args o = Some t ->
            Forall (fun kv => kv.1 <> g_freed /\ kv.2 <> g_freed) t.

Definition is_extcap (o : interface_options) : bool :=
  bool_decide (if_type o = IF_EXTCAP).

(** One iteration of the loop of [extcaps_init_initerfaces] on the entry
    [o]: whether the loop goes on, the entry to store, and the world;
    nothing when a freed string is read. *)
Definition init_entry `{P : extcap_parser} (os : os_t) (o : interface_options)
    (w : world) : option (bool * interface_options * world) :=
  if decide (if_type o ≠ IF_EXTCAP) then Some (true, o, w)
  else
    let '(ok, fifo, w) := extcap_create_pipe os (extcap_fifo o) w in
    if negb ok then Some (false, o, w)
    else
      match run_capture_argv o fifo with
      | None => None
      | Some argv =>
          let pid : GPid := default 0%Z (os_spawn_async os argv) in
          Some (true,
                mk_interface_options (name o) (if_type o) (extcap o) fifo pid
                  (free_args <$> extcap_args o),
                log_spawn argv w)
      end.

(** The loop over the entries still to be visited. *)
Fixpoint init_entries `{P : extcap_parser} (os : os_t)
    (l : list interface_options) (w : world)
  : option (bool * list interface_options * world) :=
  match l with
  | [] => Some (true, [], w)
  | o :: l =>
      match init_entry os o w with
      | None => None
      | Some (ok, o', w1) =>
          if ok then
            match init_entries os l w1 with
            | None => None
            | Some (ok2, l', w2) => Some (ok2, o' :: l', w2)
            end
          else Some (false, o :: l, w1)
      end
  end.

(** The pids [extcap_cleanup] has to release: those of the helper-backed
    entries that are not [(GPid)-1]. *)
Definition valid_pids (l : list interface_options) : list GPid :=
  filter (fun pid => pid ≠ GPid_invalid)
         (map extcap_pid (filter (fun o => if_type o = IF_EXTCAP) l)).

(** [q] is the channel path of some helper-backed entry of [l]. *)
Definition session_fifo (l : list interface_options) (q : string) : Prop :=
  Exists (fun o => if_type o = IF_EXTCAP /\ extcap_fifo o = Some q) l.

(** The world after the processes [l] have been started, in that order. *)
Definition log_spawns (l : list (list cstr)) (w : world) : world :=
  mk_world (ifaces w) (fs w) (tempfiles w) (spawned w ++ l) (closed_pids w)
           (unlink_failures w).

(** The argv [extcap_foreach] builds for the directory entry [file]. *)
Definition foreach_argv (os : os_t) (argc : nat) (args : list cstr)
    (file : string) : list cstr :=
  Some (extcap_path (os_extcap_dir os) file) :: take argc args ++ [None].

(** The helper started with [argv] could not be run to exit status 0. *)
Definition run_failed (os : os_t) (argv : list cstr) : Prop :=
  (os_spawn_sync os argv).1.1 && ((os_spawn_sync os argv).1.2 =? 0)%Z = false.

(** A callback that counts its calls and stops at once. *)
Definition stop_cb : extcap_cb_t nat :=
  fun _ _ n err_str w => (false, S n, err_str, w).

(** A directory of three helpers with names of their own. *)
Definition demo_disjoint_spawn (argv : list cstr) : bool * Z * string :=
  match argv with
  | Some prog :: _ =>
      if String.eqb prog "/x/A" then (true, 0%Z, "eth-ext usb-ext")
      else if String.eqb prog "/x/B" then (true, 0%Z, "ble-ext")
      else (true, 0%Z, "")
  | _ => (false, 0%Z, "")
  end.

Definition os_disjoint : os_t :=
  mk_os "/x" (Some ["A"; "B"; "E"]) demo_disjoint_spawn
    (fun _ => Some 4242%Z)
    (fun n => ((3 + Z.of_nat n)%Z, Some ("/tmp/wireshark_extcap" +:+ primes n)))
    (fun _ => true).

(** ** The registry *)

Section Registry.

Context {P : extcap_parser}.

Lemma extcap_if_exists_registered (n : string) (w : world) :
  extcap_if_exists (Some n) w = if registered w n is Some _ then true else false.
Proof.
  unfold extcap_if_exists, registered.
  destruct (ifaces w) as [m|]; simpl; [|done].
  destruct (0 <? size m)%nat eqn:Hs; [done|].
  apply Nat.ltb_ge in Hs.
  assert (m = ∅) as -> by (apply map_size_empty_inv; lia).
  by rewrite lookup_empty.
Qed.

Lemma extcap_if_exists_NULL (w : world) : extcap_if_exists None w = false.
Proof. done. Qed.

Lemma extcap_if_exists_for_extcap_registered (n path : string) (w : world) :
  extcap_if_exists_for_extcap (Some n) path w =
  if registered w n is Some e then String.eqb e path else false.
Proof.
  unfold extcap_if_exists_for_extcap.
  rewrite extcap_if_exists_registered. unfold registered.
  destruct (g_hash_table_lookup (ifaces w) n) as [e|]; [|done].
  by destruct (String.eqb e path).
Qed.

Lemma extcap_if_add_registered (a path n : string) (w : world) :
  registered (extcap_if_add a path w) n =
  match registered w n with
  | Some p => Some p
  | None =>
      match ifaces w with
      | Some _ => if String.eqb a n then Some path else None
      | None => None
      end
  end.
Proof.
  unfold extcap_if_add, registered.
  destruct (ifaces w) as [m|] eqn:Hm; simpl; [|by rewrite Hm].
  destruct (String.eqb_spec a n) as [->|Hne].
  - destruct (m !! n) eqn:Hn; simpl; rewrite ?Hm; simpl; rewrite ?Hn; [done|].
    by rewrite lookup_insert_eq.
  - destruct (m !! a) eqn:Ha; simpl; rewrite ?Hm; simpl.
    + by destruct (m !! n).
    + rewrite lookup_insert_ne; [|done]. by destruct (m !! n).
Qed.

End Registry.

(** ** Queries on names that are NULL or unknown *)

Section Inert.

Context {P : extcap_parser}.

(** C10: with a NULL interface name [extcap_if_exists] answers FALSE,
    [extcap_get_if_dlts] returns NULL and [extcap_get_if_configuration]
    the empty list; the world (registry, files, processes spawned) is left
    as it was and [*err_str] is not written.  This holds in every world,
    and in particular in one whose registry is still NULL. *)
Theorem C10_NULL_name_is_inert (os : os_t) (err_str : err_ptr) (w : world) :
  extcap_if_exists None w = false
  /\ extcap_get_if_dlts os None err_str w = (None, err_str, w)
  /\ extcap_get_if_configuration os None w = ([], w)
  /\ extcap_if_exists None world0 = false
  /\ ifaces world0 = None
  /\ extcap_get_if_dlts os None err_str world0 = (None, err_str, world0)
  /\ extcap_get_if_configuration os None world0 = ([], world0).
Proof. repeat split. Qed.

(** C3: for a name the registry does not hold, [extcap_get_if_dlts]
    returns NULL and [extcap_get_if_configuration] returns the empty list;
    the world comes back unchanged, so no process was spawned. *)
Theorem C3_unregistered_name_is_inert
    (os : os_t) (n : string) (err_str : err_ptr) (w : world) :
  registered w n = None ->
  extcap_get_if_dlts os (Some n) err_str w = (None, clear_err err_str, w)
  /\ extcap_get_if_configuration os (Some n) w = ([], w)
  /\ spawned (extcap_get_if_dlts os (Some n) err_str w).2 = spawned w
  /\ spawned (extcap_get_if_configuration os (Some n) w).2 = spawned w.
Proof.
  intros Hn.
  assert (extcap_if_exists (Some n) w = false) as Hex
    by (by rewrite extcap_if_exists_registered, Hn).
  unfold extcap_get_if_dlts, extcap_get_if_configuration.
  rewrite Hex. done.
Qed.

End Inert.

(** ** Discovery *)

#[local] Arguments extcap_if_exists : simpl never.
#[local] Arguments extcap_if_exists_for_extcap : simpl never.
#[local] Arguments extcap_if_add : simpl never.

Section Discovery.

Context {P : extcap_parser}.

Lemma set_ifaces_id (w : world) : set_ifaces (ifaces w) w = w.
Proof. by destruct w. Qed.

Lemma extcap_if_exists_frame (ifname : cstr) (w1 w2 : world) :
  ifaces w1 = ifaces w2 -> extcap_if_exists ifname w1 = extcap_if_exists ifname w2.
Proof. unfold extcap_if_exists. by intros ->. Qed.

Lemma extcap_if_add_frame (a path : string) (w w2 : world) :
  extcap_if_add a path w =
  set_ifaces (ifaces (extcap_if_add a path (set_ifaces (ifaces w) w2))) w.
Proof.
  unfold extcap_if_add. simpl.
  destruct (ifaces w) as [m|] eqn:Hm; simpl.
  - destruct (m !! a); simpl; [|done]. by rewrite <- Hm, set_ifaces_id.
  - by rewrite <- Hm, set_ifaces_id.
Qed.

Lemma extcap_if_add_ifaces (a path : string) (w1 w2 : world) :
  ifaces w1 = ifaces w2 ->
  ifaces (extcap_if_add a path w1) = ifaces (extcap_if_add a path w2).
Proof.
  unfold extcap_if_add. intros Hw. rewrite <- Hw.
  destruct (ifaces w1) as [m|] eqn:Hm; [|congruence].
  destruct (m !! a); simpl; congruence.
Qed.

Lemma extcap_if_add_rest (a path : string) (w : world) :
  extcap_if_add a path w = set_ifaces (ifaces (extcap_if_add a path w)) w.
Proof.
  unfold extcap_if_add.
  destruct (ifaces w) as [m|] eqn:Hm; [destruct (m !! a)|]; simpl;
    rewrite <- ?Hm, ?set_ifaces_id; done.
Qed.

(** [interfaces_cb_loop] reads the table only ... *)
Lemma interfaces_cb_loop_sim (path : string) (ifs : list extcap_interface) :
  forall (il : list if_info_t) (w1 w2 : world),
    ifaces w1 = ifaces w2 ->
    (interfaces_cb_loop path ifs il w1).1 = (interfaces_cb_loop path ifs il w2).1
    /\ ifaces (interfaces_cb_loop path ifs il w1).2
       = ifaces (interfaces_cb_loop path ifs il w2).2.
Proof.
  induction ifs as [|i ifs IH]; intros il w1 w2 Hw; simpl; [done|].
  rewrite (extcap_if_exists_frame _ w1 w2 Hw).
  destruct (extcap_if_exists (Some (call i)) w2); [by apply IH|].
  apply IH. by apply extcap_if_add_ifaces.
Qed.

(** ... and writes the table only. *)
Lemma interfaces_cb_loop_rest (path : string) (ifs : list extcap_interface) :
  forall (il : list if_info_t) (w : world),
    (interfaces_cb_loop path ifs il w).2
    = set_ifaces (ifaces (interfaces_cb_loop path ifs il w).2) w.
Proof.
  induction ifs as [|i ifs IH]; intros il w; simpl.
  - by rewrite set_ifaces_id.
  - destruct (extcap_if_exists (Some (call i)) w); [apply IH|].
    rewrite IH at 1. by rewrite (extcap_if_add_rest (call i) path w) at 2.
Qed.

Lemma interfaces_cb_loop_frame (path : string) (ifs : list extcap_interface)
    (il : list if_info_t) (w : world) :
  interfaces_cb_loop path ifs il w =
  ((claim_interfaces path ifs (il, ifaces w)).1,
   set_ifaces (claim_interfaces path ifs (il, ifaces w)).2 w).
Proof.
  unfold claim_interfaces. simpl.
  destruct (interfaces_cb_loop_sim path ifs il w (mk_world (ifaces w) ∅ 0 [] [] 0))
    as [H1 H2]; [done|].
  destruct (interfaces_cb_loop path ifs il (mk_world _ _ _ _ _ _)) as [il2 w2].
  simpl in *. rewrite <- H1, <- H2, <- interfaces_cb_loop_rest.
  by destruct (interfaces_cb_loop path ifs il w).
Qed.

Lemma extcap_if_add_not_NULL (a path : string) (w : world) :
  ifaces w <> None -> ifaces (extcap_if_add a path w) <> None.
Proof.
  unfold extcap_if_add. destruct (ifaces w) as [m|] eqn:Hm; [|done].
  intros _. destruct (m !! a); simpl; congruence.
Qed.

Lemma interfaces_cb_loop_not_NULL (path : string) (ifs : list extcap_interface) :
  forall (il : list if_info_t) (w : world),
    ifaces w <> None -> ifaces (interfaces_cb_loop path ifs il w).2 <> None.
Proof.
  induction ifs as [|i ifs IH]; intros il w Hw; simpl; [done|].
  destruct (extcap_if_exists (Some (call i)) w); apply IH; [done|].
  by apply extcap_if_add_not_NULL.
Qed.

Lemma first_owner_app (n : string) (l1 l2 : list (string * string)) :
  first_owner n (l1 ++ l2) =
  match first_owner n l1 with
  | Some p => Some p
  | None => first_owner n l2
  end.
Proof.
  induction l1 as [|[n' p] l1 IH]; simpl; [done|].
  by destruct (String.eqb n' n).
Qed.

(** After the loop a name is owned by whoever owned it before; a free name
    goes to the first interface of this helper that carries it. *)
Lemma interfaces_cb_loop_registered (path : string) (ifs : list extcap_interface) :
  forall (il : list if_info_t) (w : world) (n : string),
    ifaces w <> None ->
    registered (interfaces_cb_loop path ifs il w).2 n =
    match registered w n with
    | Some p => Some p
    | None => first_owner n (map (fun i => (call i, path)) ifs)
    end.
Proof.
  induction ifs as [|i ifs IH]; intros il w n Hw; simpl.
  - by destruct (registered w n).
  - rewrite extcap_if_exists_registered.
    destruct (registered w (call i)) as [q|] eqn:Hq.
    + rewrite IH by done.
      destruct (registered w n) eqn:Hn; [done|].
      destruct (String.eqb_spec (call i) n) as [Heq|]; [congruence|done].
    + rewrite IH by (by apply extcap_if_add_not_NULL).
      rewrite extcap_if_add_registered.
      destruct (registered w n) eqn:Hn; [done|].
      destruct (ifaces w); [|done].
      by destruct (String.eqb (call i) n).
Qed.

(** The records appended carry names that were free, and this helper's
    path. *)
Lemma interfaces_cb_loop_records (path : string) (ifs : list extcap_interface) :
  forall (il : list if_info_t) (w : world),
    exists new : list if_info_t,
      (interfaces_cb_loop path ifs il w).1 = il ++ new
      /\ Forall (fun r => registered w (info_name r) = None
                          /\ info_extcap r = path) new.
Proof.
  induction ifs as [|i ifs IH]; intros il w; simpl.
  - exists []. by rewrite app_nil_r.
  - rewrite extcap_if_exists_registered.
    destruct (registered w (call i)) as [q|] eqn:Hq; [apply IH|].
    destruct (IH (il ++ [mk_if_info (call i) (display i) IF_EXTCAP path])
                 (extcap_if_add (call i) path w)) as (new & Hil & Hnew).
    exists (mk_if_info (call i) (display i) IF_EXTCAP path :: new). split.
    + by rewrite Hil, <- app_assoc.
    + constructor; [done|].
      eapply Forall_impl; [exact Hnew|]. intros r [Hr ?]. split; [|done].
      rewrite extcap_if_add_registered in Hr.
      by destruct (registered w (info_name r)).
Qed.

(** The loop of [extcap_foreach], driven by [interfaces_cb] with a NULL
    interface name, runs every helper of the directory and folds
    [scan_step] over it. *)
Lemma foreach_discovery (os : os_t) (files : list string) :
  forall (il : list if_info_t) (err_str : err_ptr) (w : world),
    extcap_foreach_loop os (os_extcap_dir os) 1
      [Some EXTCAP_ARGUMENT_LIST_INTERFACES] interfaces_cb None files true
      il err_str w
    = ((scan os files (il, ifaces w)).1, err_str,
       mk_world (scan os files (il, ifaces w)).2 (fs w) (tempfiles w)
         (spawned w ++ map (list_interfaces_argv os) files)
         (closed_pids w) (unlink_failures w)).
Proof.
  induction files as [|file files IH]; intros il err_str w.
  - simpl. rewrite app_nil_r. by destruct w.
  - cbn [extcap_foreach_loop scan foldl map].
    rewrite extcap_if_exists_NULL. cbn [andb take app].
    unfold scan_step at 2 4. unfold list_interfaces_argv at 2 4.
    destruct (os_spawn_sync os _) as [[status exit_status] output].
    destruct (status && (exit_status =? 0)%Z).
    + unfold interfaces_cb. rewrite interfaces_cb_loop_frame.
      cbn [fst snd]. rewrite IH.
      destruct (claim_interfaces _ _ _) as [il' t']. simpl.
      by rewrite <- app_assoc.
    + rewrite IH. simpl. by rewrite <- app_assoc.
Qed.

Lemma claim_interfaces_snd (path : string) (ifs : list extcap_interface)
    (st : list if_info_t * option (gmap string string)) :
  (claim_interfaces path ifs st).2
  = ifaces (interfaces_cb_loop path ifs st.1 (mk_world st.2 ∅ 0 [] [] 0)).2.
Proof.
  unfold claim_interfaces. by destruct (interfaces_cb_loop _ _ _ _).
Qed.

Lemma claim_interfaces_fst (path : string) (ifs : list extcap_interface)
    (st : list if_info_t * option (gmap string string)) :
  (claim_interfaces path ifs st).1
  = (interfaces_cb_loop path ifs st.1 (mk_world st.2 ∅ 0 [] [] 0)).1.
Proof.
  unfold claim_interfaces. by destruct (interfaces_cb_loop _ _ _ _).
Qed.

Lemma scan_step_lookup (os : os_t) (file : string)
    (st : list if_info_t * option (gmap string string)) (n : string) :
  st.2 <> None ->
  (scan_step os st file).2 <> None
  /\ g_hash_table_lookup (scan_step os st file).2 n =
     match g_hash_table_lookup st.2 n with
     | Some p => Some p
     | None => first_owner n (helper_adverts os file)
     end.
Proof.
  intros Hst. unfold scan_step, helper_adverts.
  destruct (os_spawn_sync os _) as [[status exit_status] output].
  destruct (status && (exit_status =? 0)%Z).
  - rewrite claim_interfaces_snd. split.
    + by apply interfaces_cb_loop_not_NULL.
    + by apply (interfaces_cb_loop_registered _ _ _ (mk_world st.2 ∅ 0 [] [] 0)).
  - split; [done|]. simpl. by destruct (g_hash_table_lookup st.2 n).
Qed.

Lemma scan_lookup (os : os_t) (files : list string) :
  forall (st : list if_info_t * option (gmap string string)) (n : string),
    st.2 <> None ->
    g_hash_table_lookup (scan os files st).2 n =
    match g_hash_table_lookup st.2 n with
    | Some p => Some p
    | None => first_owner n (concat (map (helper_adverts os) files))
    end.
Proof.
  unfold scan.
  induction files as [|file files IH]; intros st n Hst; simpl.
  - by destruct (g_hash_table_lookup st.2 n).
  - destruct (scan_step_lookup os file st n Hst) as [Hne Hl].
    rewrite IH by done. rewrite Hl, first_owner_app.
    by destruct (g_hash_table_lookup st.2 n).
Qed.

Lemma scan_app (os : os_t) (l1 l2 : list string)
    (st : list if_info_t * option (gmap string string)) :
  scan os (l1 ++ l2) st = scan os l2 (scan os l1 st).
Proof. unfold scan. by rewrite foldl_app. Qed.

Lemma scan_with_dir (d : option (list string)) (os : os_t) (files : list string)
    (st : list if_info_t * option (gmap string string)) :
  scan (with_dir d os) files st = scan os files st.
Proof. done. Qed.

(** [extcap_interface_list] in closed form. *)
Lemma extcap_interface_list_scan (os : os_t) (err_str : err_ptr) (w : world) :
  extcap_interface_list os err_str w =
  match os_dir os with
  | Some files =>
      ((scan os files ([], Some ∅)).1, clear_err err_str,
       mk_world (scan os files ([], Some ∅)).2 (fs w) (tempfiles w)
         (spawned w ++ map (list_interfaces_argv os) files)
         (closed_pids w) (unlink_failures w))
  | None => ([], clear_err err_str, extcap_if_cleanup w)
  end.
Proof.
  unfold extcap_interface_list, extcap_foreach.
  assert (clear_err (clear_err err_str) = clear_err err_str) as ->
    by (by destruct err_str).
  destruct (os_dir os) as [files|]; [|done].
  by rewrite foreach_discovery.
Qed.

(** C4: the registry is emptied when a discovery pass starts, so that
    nothing of an earlier pass survives in the result or in the registry;
    at the end of the pass every name belongs to the first helper, in scan
    order, that advertised it; a registration for a name already present
    leaves the mapping as it is and appends no record of that name; and
    [extcap_if_add] never changes the owner of a name that has one. *)
Theorem C4_first_registration_wins (os : os_t) (err_str : err_ptr) (w : world) :
  ifaces (extcap_if_cleanup w) = Some ∅
  /\ (forall t : option (gmap string string),
        (extcap_interface_list os err_str (set_ifaces t w)).1
        = (extcap_interface_list os err_str w).1
        /\ ifaces (extcap_interface_list os err_str (set_ifaces t w)).2
           = ifaces (extcap_interface_list os err_str w).2)
  /\ (forall n : string,
        registered (extcap_interface_list os err_str w).2 n
        = first_owner n (adverts os))
  /\ (forall (path output : string) (il : list if_info_t) (e : err_ptr)
             (n p : string),
        registered w n = Some p ->
        registered (interfaces_cb path output il e w).2 n = Some p
        /\ exists new : list if_info_t,
             (interfaces_cb path output il e w).1.1.2 = il ++ new
             /\ Forall (fun r => info_name r <> n) new)
  /\ (forall a path n p : string,
        registered w n = Some p ->
        registered (extcap_if_add a path w) n = Some p).
Proof.
  split; [done|]. split; [|split; [|split]].
  - intros t. rewrite !extcap_interface_list_scan.
    by destruct (os_dir os).
  - intros n. rewrite extcap_interface_list_scan. unfold adverts, registered.
    destruct (os_dir os) as [files|]; [|done]. simpl.
    by rewrite scan_lookup.
  - intros path output il e n p Hn. unfold interfaces_cb.
    assert (ifaces w <> None) as Hw
      by (unfold registered in Hn; by destruct (ifaces w)).
    pose proof (interfaces_cb_loop_registered path
      (extcap_parse_interfaces (extcap_tokenize_sentences output)) il w n Hw) as Hreg.
    destruct (interfaces_cb_loop_records path
      (extcap_parse_interfaces (extcap_tokenize_sentences output)) il w)
      as (new & Hil & Hnew).
    destruct (interfaces_cb_loop _ _ _ _) as [il' w']. simpl in *.
    rewrite Hn in Hreg. split; [done|].
    exists new. split; [done|].
    eapply Forall_impl; [exact Hnew|]. intros r [Hr _] Heq. congruence.
  - intros a path n p Hn. by rewrite extcap_if_add_registered, Hn.
Qed.

Lemma append_inv_head (s a b : string) : s +:+ a = s +:+ b -> a = b.
Proof. induction s as [|c s IH]; simpl; [done|]. intros [=]. auto. Qed.

Lemma extcap_path_inj (dirname f1 f2 : string) :
  extcap_path dirname f1 = extcap_path dirname f2 -> f1 = f2.
Proof.
  unfold extcap_path. intros H.
  apply append_inv_head in H. by apply append_inv_head in H.
Qed.

Lemma scan_step_failed (os : os_t) (file : string)
    (st : list if_info_t * option (gmap string string)) :
  helper_ok os file = false -> scan_step os st file = st.
Proof.
  unfold helper_ok, scan_step.
  destruct (os_spawn_sync os _) as [[status exit_status] output].
  by intros ->.
Qed.

Lemma helper_adverts_failed (os : os_t) (file : string) :
  helper_ok os file = false -> helper_adverts os file = [].
Proof.
  unfold helper_ok, helper_adverts.
  destruct (os_spawn_sync os _) as [[status exit_status] output].
  by intros ->.
Qed.

Lemma helper_adverts_path (os : os_t) (file : string) (n p : string) :
  (n, p) ∈ helper_adverts os file ->
  p = extcap_path (os_extcap_dir os) file /\ helper_ok os file = true.
Proof.
  unfold helper_ok, helper_adverts.
  destruct (os_spawn_sync os _) as [[status exit_status] output].
  destruct (status && (exit_status =? 0)%Z); [|by intros ?%elem_of_nil].
  intros (i & [= -> ->] & _)%list_elem_of_fmap. done.
Qed.

Lemma first_owner_elem_of (n p : string) (l : list (string * string)) :
  first_owner n l = Some p -> (n, p) ∈ l.
Proof.
  induction l as [|[n' q] l IH]; simpl; [done|].
  destruct (String.eqb_spec n' n) as [->|].
  - intros [= ->]. left.
  - intros H. right. auto.
Qed.

(** Every record a scan appends names a helper that ran with status 0. *)
Lemma scan_records (os : os_t) (files : list string) :
  forall st : list if_info_t * option (gmap string string),
    exists new : list if_info_t,
      (scan os files st).1 = st.1 ++ new
      /\ Forall (fun r => exists file,
                   file ∈ files
                   /\ info_extcap r = extcap_path (os_extcap_dir os) file
                   /\ helper_ok os file = true) new.
Proof.
  unfold scan.
  induction files as [|file files IH]; intros st; simpl.
  - exists []. by rewrite app_nil_r.
  - destruct (IH (scan_step os st file)) as (new & Hil & Hnew).
    assert (exists new0 : list if_info_t,
      (scan_step os st file).1 = st.1 ++ new0
      /\ Forall (fun r => info_extcap r = extcap_path (os_extcap_dir os) file
                          /\ helper_ok os file = true) new0) as (new0 & H0 & Hnew0).
    { unfold scan_step, helper_ok.
      destruct (os_spawn_sync os _) as [[status exit_status] output].
      destruct (status && (exit_status =? 0)%Z).
      - rewrite claim_interfaces_fst.
        destruct (interfaces_cb_loop_records
          (extcap_path (os_extcap_dir os) file)
          (extcap_parse_interfaces (extcap_tokenize_sentences output))
          st.1 (mk_world st.2 ∅ 0 [] [] 0)) as (new0 & H0 & Hnew0).
        exists new0. split; [done|].
        eapply Forall_impl; [exact Hnew0|]. by intros r [_ ?].
      - exists []. by rewrite app_nil_r. }
    exists (new0 ++ new). split.
    + by rewrite Hil, H0, <- app_assoc.
    + apply Forall_app. split.
      * eapply Forall_impl; [exact Hnew0|]. intros r [? ?].
        exists file. split; [left|done].
      * eapply Forall_impl; [exact Hnew|]. intros r (file' & ? & ? & ?).
        exists file'. split; [by right|done].
Qed.

Lemma scan_drop_failed (os : os_t) (l1 l2 : list string) (f : string)
    (st : list if_info_t * option (gmap string string)) :
  helper_ok os f = false ->
  scan os (l1 ++ f :: l2) st = scan os (l1 ++ l2) st.
Proof.
  intros Hko. rewrite !scan_app.
  change (scan os (f :: l2) (scan os l1 st))
    with (scan os l2 (scan_step os (scan os l1 st) f)).
  by rewrite scan_step_failed.
Qed.

(** C8: a helper of the directory that cannot be started, or that exits
    with a nonzero status, leaves the result list and the registry of the
    discovery pass exactly as if it were not in the directory; no record
    and no registry entry names it; the helpers after it are still run,
    each once and in directory order; and [*err_str] is only reset. *)
Theorem C8_failed_helper_contributes_nothing
    (os : os_t) (l1 l2 : list string) (f : string)
    (err_str : err_ptr) (w : world) :
  os_dir os = Some (l1 ++ f :: l2) ->
  (os_spawn_sync os (list_interfaces_argv os f)).1.1 = false
  \/ (os_spawn_sync os (list_interfaces_argv os f)).1.2 <> 0%Z ->
  (extcap_interface_list os err_str w).1
  = (extcap_interface_list (with_dir (Some (l1 ++ l2)) os) err_str w).1
  /\ ifaces (extcap_interface_list os err_str w).2
     = ifaces (extcap_interface_list (with_dir (Some (l1 ++ l2)) os) err_str w).2
  /\ Forall (fun r => info_extcap r <> extcap_path (os_extcap_dir os) f)
       (extcap_interface_list os err_str w).1.1
  /\ (forall n : string,
        registered (extcap_interface_list os err_str w).2 n
        <> Some (extcap_path (os_extcap_dir os) f))
  /\ spawned (extcap_interface_list os err_str w).2
     = spawned w ++ map (list_interfaces_argv os) (l1 ++ f :: l2)
  /\ (extcap_interface_list os err_str w).1.2 = clear_err err_str.
Proof.
  intros Hdir Hfail.
  assert (helper_ok os f = false) as Hko.
  { unfold helper_ok.
    destruct (os_spawn_sync os _) as [[status exit_status] output]. simpl in *.
    destruct Hfail as [->|Hne]; [done|].
    apply andb_false_intro2. by apply Z.eqb_neq. }
  rewrite !extcap_interface_list_scan, Hdir. cbn [with_dir os_dir fst snd ifaces spawned].
  rewrite scan_with_dir, !scan_drop_failed by done.
  split; [done|]. split; [done|]. split; [|split; [|done]].
  - destruct (scan_records os (l1 ++ l2) ([], Some ∅)) as (new & Hil & Hnew).
    rewrite Hil. simpl.
    eapply Forall_impl; [exact Hnew|].
    intros r (file & _ & Hp & Hok) Heq. rewrite Hp in Heq.
    apply extcap_path_inj in Heq. congruence.
  - intros n Hn. unfold registered in Hn. simpl in Hn.
    rewrite scan_lookup in Hn by done. simpl in Hn.
    apply first_owner_elem_of in Hn.
    apply list_elem_of_In, in_concat in Hn as (l & Hl & Hin).
    apply in_map_iff in Hl as (file & <- & _).
    apply list_elem_of_In, helper_adverts_path in Hin as [Hp Hok].
    apply extcap_path_inj in Hp. congruence.
Qed.

End Discovery.

(** ** Capability queries *)

Section Queries.

Context {P : extcap_parser}.

(** A directory entry that is not the owner of the queried name is passed
    over: nothing is spawned for it. *)
Lemma foreach_skip {D : Type} (os : os_t) (dirname : string) (argc : nat)
    (args : list cstr) (cb : extcap_cb_t D) (n owner : string)
    (files : list string) :
  forall (keep_going : bool) (cb_data : D) (err_str : err_ptr) (w : world),
    registered w n = Some owner ->
    Forall (fun f => extcap_path dirname f <> owner) files ->
    extcap_foreach_loop os dirname argc args cb (Some n) files keep_going
      cb_data err_str w = (cb_data, err_str, w).
Proof.
  induction files as [|file files IH]; intros kg d e w Hn Hf; simpl; [done|].
  destruct kg; [|done].
  apply Forall_cons in Hf as [Hfile Hf].
  rewrite extcap_if_exists_registered, extcap_if_exists_for_extcap_registered, Hn.
  destruct (String.eqb_spec owner (extcap_path dirname file)); [congruence|].
  simpl. by apply IH.
Qed.

Lemma foreach_skip_prefix {D : Type} (os : os_t) (dirname : string) (argc : nat)
    (args : list cstr) (cb : extcap_cb_t D) (n owner : string)
    (l1 rest : list string) :
  forall (cb_data : D) (err_str : err_ptr) (w : world),
    registered w n = Some owner ->
    Forall (fun f => extcap_path dirname f <> owner) l1 ->
    extcap_foreach_loop os dirname argc args cb (Some n) (l1 ++ rest) true
      cb_data err_str w
    = extcap_foreach_loop os dirname argc args cb (Some n) rest true
        cb_data err_str w.
Proof.
  induction l1 as [|file l1 IH]; intros d e w Hn Hf; simpl; [done|].
  apply Forall_cons in Hf as [Hfile Hf].
  rewrite extcap_if_exists_registered, extcap_if_exists_for_extcap_registered, Hn.
  destruct (String.eqb_spec owner (extcap_path dirname file)); [congruence|].
  simpl. by apply IH.
Qed.

(** With the owner at one place of the directory, the whole loop is one
    invocation of the owner, followed by the callback when the helper ran
    with status 0.  The callback is one that leaves the world alone. *)
Lemma foreach_owner {D : Type} (os : os_t) (dirname : string) (argc : nat)
    (args : list cstr) (cb : extcap_cb_t D) (n f : string)
    (l1 l2 : list string) (cb_data : D) (err_str : err_ptr) (w : world) :
  (forall e o d er w', (cb e o d er w').2 = w') ->
  registered w n = Some (extcap_path dirname f) ->
  f ∉ l1 -> f ∉ l2 ->
  extcap_foreach_loop os dirname argc args cb (Some n) (l1 ++ f :: l2) true
    cb_data err_str w
  = let argv := Some (extcap_path dirname f) :: take argc args ++ [None] in
    let r := os_spawn_sync os argv in
    if r.1.1 && (r.1.2 =? 0)%Z then
      let c := cb (extcap_path dirname f) r.2 cb_data err_str (log_spawn argv w) in
      (c.1.1.2, c.1.2, log_spawn argv w)
    else (cb_data, err_str, log_spawn argv w).
Proof.
  intros Hcb Hn Hl1 Hl2.
  assert (forall l, f ∉ l ->
    Forall (fun f' => extcap_path dirname f' <> extcap_path dirname f) l) as Hskip.
  { intros l Hl. apply Forall_forall. intros f' Hf' Heq.
    apply extcap_path_inj in Heq. by subst. }
  rewrite (foreach_skip_prefix _ _ _ _ _ n (extcap_path dirname f)) by auto.
  cbn [extcap_foreach_loop].
  rewrite extcap_if_exists_registered, extcap_if_exists_for_extcap_registered, Hn.
  rewrite String.eqb_refl. cbn [negb andb].
  destruct (os_spawn_sync os _) as [[status exit_status] output]. cbn [fst snd].
  destruct (status && (exit_status =? 0)%Z).
  - pose proof (Hcb (extcap_path dirname f) output cb_data err_str
      (log_spawn (Some (extcap_path dirname f) :: take argc args ++ [None]) w)) as Hc.
    destruct (cb _ _ _ _ _) as [[[kg d] e] w']. simpl in Hc. subst w'. simpl.
    by rewrite (foreach_skip _ _ _ _ _ n (extcap_path dirname f)) by auto.
  - by rewrite (foreach_skip _ _ _ _ _ n (extcap_path dirname f)) by auto.
Qed.

Lemma dir_entries_split (os : os_t) (f : string) :
  NoDup (dir_entries os) -> f ∈ dir_entries os ->
  exists l1 l2 : list string,
    os_dir os = Some (l1 ++ f :: l2) /\ (f ∉ l1) /\ (f ∉ l2).
Proof.
  unfold dir_entries. intros Hnd Hf.
  destruct (os_dir os) as [files|]; simpl in *; [|by apply elem_of_nil in Hf].
  apply list_elem_of_split in Hf as (l1 & l2 & ->).
  exists l1, l2. split; [done|].
  apply NoDup_app in Hnd as (_ & Hl1 & Hl2).
  split.
  - intros Hin. apply (Hl1 f Hin). left.
  - by apply NoDup_cons in Hl2 as [? _].
Qed.

Lemma dir_entries_absent (os : os_t) (owner : string) :
  (forall f, f ∈ dir_entries os -> extcap_path (os_extcap_dir os) f <> owner) ->
  match os_dir os with
  | Some files =>
      Forall (fun f => extcap_path (os_extcap_dir os) f <> owner) files
  | None => True
  end.
Proof.
  unfold dir_entries. destruct (os_dir os); simpl; [|done].
  intros H. by apply Forall_forall.
Qed.

Lemma clear_err_idemp (e : err_ptr) : clear_err (clear_err e) = clear_err e.
Proof. by destruct e. Qed.

Lemma registered_exists (n owner : string) (w : world) :
  registered w n = Some owner -> extcap_if_exists (Some n) w = true.
Proof. intros H. by rewrite extcap_if_exists_registered, H. Qed.

Lemma dlt_cb_world (e o : string) (d : option (option if_capabilities_t))
    (er : err_ptr) (w : world) :
  (dlt_cb e o d er w).2 = w.
Proof.
  unfold dlt_cb.
  by destruct (dlt_cb_loop _ _), d.
Qed.

Lemma search_cb_world (e o : string) (d : list (list extcap_arg))
    (er : err_ptr) (w : world) :
  (search_cb e o d er w).2 = w.
Proof. done. Qed.

(** The link-type query when the owner is in the directory ... *)
Lemma extcap_get_if_dlts_present (os : os_t) (n f : string) (err_str : err_ptr)
    (w : world) :
  NoDup (dir_entries os) -> f ∈ dir_entries os ->
  registered w n = Some (extcap_path (os_extcap_dir os) f) ->
  extcap_get_if_dlts os (Some n) err_str w =
  let argv := dlts_argv (extcap_path (os_extcap_dir os) f) n in
  let r := os_spawn_sync os argv in
  if r.1.1 && (r.1.2 =? 0)%Z then
    let c := dlt_cb (extcap_path (os_extcap_dir os) f) r.2 (Some None)
               (clear_err err_str) (log_spawn argv w) in
    (default None c.1.1.2, c.1.2, log_spawn argv w)
  else (None, clear_err err_str, log_spawn argv w).
Proof.
  intros Hnd Hf Hn.
  destruct (dir_entries_split os f Hnd Hf) as (l1 & l2 & Hdir & Hl1 & Hl2).
  unfold extcap_get_if_dlts, extcap_foreach.
  rewrite (registered_exists _ _ _ Hn), Hdir, clear_err_idemp.
  rewrite (foreach_owner os _ 3 _ dlt_cb n f l1 l2)
    by (done || apply dlt_cb_world).
  cbn [take app]. unfold dlts_argv. cbv zeta.
  destruct (os_spawn_sync os _) as [[status exit_status] output]. cbn [fst snd].
  by destruct (status && (exit_status =? 0)%Z).
Qed.

(** ... and when it is not. *)
Lemma extcap_get_if_dlts_absent (os : os_t) (n owner : string)
    (err_str : err_ptr) (w : world) :
  (forall f, f ∈ dir_entries os -> extcap_path (os_extcap_dir os) f <> owner) ->
  registered w n = Some owner ->
  extcap_get_if_dlts os (Some n) err_str w = (None, clear_err err_str, w).
Proof.
  intros Habs Hn. apply dir_entries_absent in Habs.
  unfold extcap_get_if_dlts, extcap_foreach.
  rewrite (registered_exists _ _ _ Hn), clear_err_idemp.
  destruct (os_dir os) as [files|]; [|done].
  by rewrite (foreach_skip _ _ _ _ _ n owner).
Qed.

Lemma extcap_get_if_configuration_present (os : os_t) (n f : string) (w : world) :
  NoDup (dir_entries os) -> f ∈ dir_entries os ->
  registered w n = Some (extcap_path (os_extcap_dir os) f) ->
  extcap_get_if_configuration os (Some n) w =
  let argv := configuration_argv (extcap_path (os_extcap_dir os) f) n in
  let r := os_spawn_sync os argv in
  if r.1.1 && (r.1.2 =? 0)%Z then
    ([extcap_parse_args (extcap_tokenize_sentences r.2)], log_spawn argv w)
  else ([], log_spawn argv w).
Proof.
  intros Hnd Hf Hn.
  destruct (dir_entries_split os f Hnd Hf) as (l1 & l2 & Hdir & Hl1 & Hl2).
  unfold extcap_get_if_configuration, extcap_foreach.
  rewrite (registered_exists _ _ _ Hn), Hdir.
  rewrite (foreach_owner os _ 4 _ search_cb n f l1 l2)
    by (done || apply search_cb_world).
  cbn [take app]. unfold configuration_argv. cbv zeta.
  destruct (os_spawn_sync os _) as [[status exit_status] output]. cbn [fst snd].
  by destruct (status && (exit_status =? 0)%Z).
Qed.

Lemma extcap_get_if_configuration_absent (os : os_t) (n owner : string)
    (w : world) :
  (forall f, f ∈ dir_entries os -> extcap_path (os_extcap_dir os) f <> owner) ->
  registered w n = Some owner ->
  extcap_get_if_configuration os (Some n) w = ([], w).
Proof.
  intros Habs Hn. apply dir_entries_absent in Habs.
  unfold extcap_get_if_configuration, extcap_foreach.
  rewrite (registered_exists _ _ _ Hn).
  destruct (os_dir os) as [files|]; [|done].
  by rewrite (foreach_skip _ _ _ _ _ n owner).
Qed.

Lemma drop_log_spawn (argv : list cstr) (w : world) :
  drop (length (spawned w)) (spawned (log_spawn argv w)) = [argv].
Proof. simpl. by rewrite drop_app_length. Qed.

(** C2, as the code has it: in a directory listing without repeated
    names, a capability query on a registered name starts the owner
    recorded in the registry once when the owner's file is listed, and
    starts nothing when it is not (the helper was removed, or the
    directory cannot be opened).  In every case at most one process is
    started and no program other than the owner is. *)
Theorem C2_only_the_owner_is_spawned
    (os : os_t) (n owner : string) (err_str : err_ptr) (w : world) :
  NoDup (dir_entries os) ->
  registered w n = Some owner ->
  ((exists f, f ∈ dir_entries os /\ extcap_path (os_extcap_dir os) f = owner) ->
     spawned_by_dlts os n err_str w = [dlts_argv owner n]
     /\ spawned_by_configuration os n w = [configuration_argv owner n])
  /\ ((forall f, f ∈ dir_entries os ->
                 extcap_path (os_extcap_dir os) f <> owner) ->
        spawned_by_dlts os n err_str w = []
        /\ spawned_by_configuration os n w = [])
  /\ (length (spawned_by_dlts os n err_str w) <= 1)%nat
  /\ (length (spawned_by_configuration os n w) <= 1)%nat
  /\ Forall (fun argv => head argv = Some (Some owner))
       (spawned_by_dlts os n err_str w ++ spawned_by_configuration os n w).
Proof.
  intros Hnd Hn.
  assert ((exists f, f ∈ dir_entries os
                     /\ extcap_path (os_extcap_dir os) f = owner) ->
          spawned_by_dlts os n err_str w = [dlts_argv owner n]
          /\ spawned_by_configuration os n w = [configuration_argv owner n])
    as Hpresent.
  { intros (f & Hf & <-).
    unfold spawned_by_dlts, spawned_by_configuration.
    rewrite (extcap_get_if_dlts_present os n f) by done.
    rewrite (extcap_get_if_configuration_present os n f) by done.
    cbv zeta. split.
    - destruct (os_spawn_sync os (dlts_argv _ _)) as [[status exit_status] output].
      cbn [fst snd]. destruct (status && (exit_status =? 0)%Z);
        cbn [fst snd]; apply drop_log_spawn.
    - destruct (os_spawn_sync os (configuration_argv _ _))
        as [[status exit_status] output].
      cbn [fst snd]. destruct (status && (exit_status =? 0)%Z);
        cbn [fst snd]; apply drop_log_spawn. }
  assert ((forall f, f ∈ dir_entries os ->
                     extcap_path (os_extcap_dir os) f <> owner) ->
          spawned_by_dlts os n err_str w = []
          /\ spawned_by_configuration os n w = []) as Habsent.
  { intros Habs. unfold spawned_by_dlts, spawned_by_configuration.
    rewrite (extcap_get_if_dlts_absent os n owner) by done.
    rewrite (extcap_get_if_configuration_absent os n owner) by done.
    cbn [snd]. by rewrite drop_all. }
  split; [done|]. split; [done|].
  destruct (decide (Exists (fun f => extcap_path (os_extcap_dir os) f = owner)
                           (dir_entries os))) as [Hex|Hnex].
  - apply Exists_exists in Hex. destruct (Hpresent Hex) as [-> ->].
    split; [done|]. split; [done|]. by repeat constructor.
  - destruct Habsent as [-> ->].
    + intros f Hf Heq. apply Hnex, Exists_exists. eauto.
    + split; [simpl; lia|]. split; [simpl; lia|]. constructor.
Qed.

(** C9, as the code has it: when the owner of a registered name runs
    with exit status 0 and its output yields no link type,
    [extcap_get_if_dlts] returns NULL and, if the caller passed an
    [err_str], stores the message "Extcap returned no DLTs" in it.  When
    the output of the owner yields no argument, on the other hand,
    [extcap_get_if_configuration] returns the one-element list that holds
    the empty argument list: it has no error output of any kind. *)
Theorem C9_zero_records_reporting
    (os : os_t) (n f : string) (err_str : err_ptr) (w : world) :
  NoDup (dir_entries os) -> f ∈ dir_entries os ->
  registered w n = Some (extcap_path (os_extcap_dir os) f) ->
  (forall out_d : string,
     os_spawn_sync os (dlts_argv (extcap_path (os_extcap_dir os) f) n)
       = (true, 0%Z, out_d) ->
     extcap_parse_dlts (extcap_tokenize_sentences out_d) = [] ->
     (extcap_get_if_dlts os (Some n) err_str w).1
       = (None,
          match err_str with
          | Some _ => Some (Some "Extcap returned no DLTs")
          | None => None
          end))
  /\ (forall out_c : string,
        os_spawn_sync os
          (configuration_argv (extcap_path (os_extcap_dir os) f) n)
          = (true, 0%Z, out_c) ->
        extcap_parse_args (extcap_tokenize_sentences out_c) = [] ->
        (extcap_get_if_configuration os (Some n) w).1 = [[]]).
Proof.
  intros Hnd Hf Hn. split.
  - intros out_d Hd Hpd.
    rewrite (extcap_get_if_dlts_present os n f) by done.
    cbv zeta. rewrite Hd. cbn [fst snd andb Z.eqb].
    unfold dlt_cb. rewrite Hpd. simpl. by destruct err_str.
  - intros out_c Hc Hpc.
    rewrite (extcap_get_if_configuration_present os n f) by done.
    cbv zeta. rewrite Hc. cbn [fst snd andb Z.eqb].
    by rewrite Hpc.
Qed.

End Queries.

(** ** Session start and teardown *)

Section Session.

Context {P : extcap_parser}.

(** More fuel than the array is long changes nothing: the loops run to
    the end of the array. *)
Lemma extcaps_init_loop_fuel (os : os_t) (fuel1 : nat) :
  forall (fuel2 i : nat) (capture_opts : capture_options) (w : world),
    (length (opts_ifaces capture_opts) - i <= fuel1)%nat ->
    (length (opts_ifaces capture_opts) - i <= fuel2)%nat ->
    extcaps_init_loop os fuel1 i capture_opts w
    = extcaps_init_loop os fuel2 i capture_opts w.
Proof.
  induction fuel1 as [|fuel1 IH]; intros fuel2 i co w H1 H2.
  - assert (opts_ifaces co !! i = None) as Hi
      by (apply lookup_ge_None; lia).
    destruct fuel2; simpl; [done|]. by rewrite Hi.
  - destruct fuel2 as [|fuel2].
    + assert (opts_ifaces co !! i = None) as Hi
        by (apply lookup_ge_None; lia).
      simpl. by rewrite Hi.
    + simpl. destruct (opts_ifaces co !! i) as [o|] eqn:Hi; [|done].
      destruct (decide (if_type o ≠ IF_EXTCAP)); [apply IH; lia|].
      destruct (extcap_create_pipe os (extcap_fifo o) w) as [[ok fifo] w'].
      destruct ok; [|done]. simpl.
      destruct (read_argv _); [|done].
      apply IH; simpl; rewrite length_insert; lia.
Qed.

(** [extcap_cleanup] is a left fold of its loop body over the array, and
    hands the array back untouched. *)
Lemma extcap_cleanup_loop_fold (fuel : nat) :
  forall (icnt : nat) (capture_opts : capture_options) (w : world),
    (fuel + icnt = length (opts_ifaces capture_opts))%nat ->
    extcap_cleanup_loop fuel icnt capture_opts w
    = (capture_opts, foldl cleanup_step w (drop icnt (opts_ifaces capture_opts))).
Proof.
  induction fuel as [|fuel IH]; intros icnt co w Hlen.
  - simpl in *. subst icnt. by rewrite drop_all.
  - cbn [extcap_cleanup_loop].
    destruct (opts_ifaces co !! icnt) as [o|] eqn:Hi.
    + rewrite (drop_S _ _ _ Hi). cbn [foldl]. unfold cleanup_step at 2.
      destruct (extcap_cleanup_entry o w) as [o' w']. cbn [snd].
      apply IH. lia.
    + apply lookup_ge_None in Hi. lia.
Qed.

Lemma extcap_cleanup_fold (capture_opts : capture_options) (w : world) :
  extcap_cleanup capture_opts w
  = (capture_opts, foldl cleanup_step w (opts_ifaces capture_opts)).
Proof.
  unfold extcap_cleanup. rewrite extcap_cleanup_loop_fold by lia.
  by rewrite drop_0.
Qed.

(** What one iteration does to the files: the FIFO of a helper-backed
    entry is gone afterwards, whether it was there or not. *)
Lemma cleanup_step_fs (w : world) (o : interface_options) :
  fs (cleanup_step w o) =
  if decide (if_type o ≠ IF_EXTCAP) then fs w
  else match extcap_fifo o with
       | Some p => delete p (fs w)
       | None => fs w
       end.
Proof.
  unfold cleanup_step, extcap_cleanup_entry.
  destruct (decide (if_type o ≠ IF_EXTCAP)); [done|].
  destruct (extcap_fifo o) as [p|] eqn:Hp.
  - unfold file_exists, ws_unlink.
    destruct (fs w !! p) eqn:Hfs; simpl;
      destruct (decide (_ ≠ GPid_invalid)); simpl; try done;
      symmetry; by apply delete_id.
  - destruct (decide (_ ≠ GPid_invalid)); done.
Qed.

(** [ws_unlink] is only reached behind [file_exists]: it never fails for
    a missing file. *)
Lemma cleanup_step_unlink_failures (w : world) (o : interface_options) :
  unlink_failures (cleanup_step w o) = unlink_failures w.
Proof.
  unfold cleanup_step, extcap_cleanup_entry.
  destruct (decide (if_type o ≠ IF_EXTCAP)); [done|].
  destruct (extcap_fifo o) as [p|] eqn:Hp.
  - unfold file_exists, ws_unlink.
    destruct (fs w !! p) eqn:Hfs; simpl;
      destruct (decide (_ ≠ GPid_invalid)); simpl; done.
  - destruct (decide (_ ≠ GPid_invalid)); done.
Qed.

Lemma cleanup_fold_unlink_failures (l : list interface_options) :
  forall w : world, unlink_failures (foldl cleanup_step w l) = unlink_failures w.
Proof.
  induction l as [|o l IH]; intros w; simpl; [done|].
  by rewrite IH, cleanup_step_unlink_failures.
Qed.

(** A file that is missing stays missing. *)
Lemma cleanup_fold_stays_missing (l : list interface_options) :
  forall (w : world) (q : string),
    fs w !! q = None -> fs (foldl cleanup_step w l) !! q = None.
Proof.
  induction l as [|o l IH]; intros w q Hq; simpl; [done|].
  apply IH. rewrite cleanup_step_fs.
  destruct (decide (if_type o ≠ IF_EXTCAP)); [done|].
  destruct (extcap_fifo o) as [p|]; [|done].
  rewrite lookup_delete. by case_decide.
Qed.

(** After the loop the FIFO of every helper-backed entry is missing. *)
Lemma cleanup_fold_removes (l : list interface_options) :
  forall (w : world) (o : interface_options) (p : string),
    o ∈ l -> if_type o = IF_EXTCAP -> extcap_fifo o = Some p ->
    fs (foldl cleanup_step w l) !! p = None.
Proof.
  induction l as [|o' l IH]; intros w o p Ho Ht Hp; simpl.
  - by apply elem_of_nil in Ho.
  - apply elem_of_cons in Ho as [<-|Ho]; [|by eapply IH].
    apply cleanup_fold_stays_missing. rewrite cleanup_step_fs.
    destruct (decide (if_type o ≠ IF_EXTCAP)); [done|].
    rewrite Hp. by rewrite lookup_delete_eq.
Qed.

(** With every FIFO of the session already missing, the loop leaves the
    files as they are. *)
Lemma cleanup_fold_nothing_left (l : list interface_options) :
  forall w : world,
    (forall o p, o ∈ l -> if_type o = IF_EXTCAP -> extcap_fifo o = Some p ->
                 fs w !! p = None) ->
    fs (foldl cleanup_step w l) = fs w.
Proof.
  induction l as [|o l IH]; intros w Hgone; simpl; [done|].
  assert (fs (cleanup_step w o) = fs w) as Hstep.
  { rewrite cleanup_step_fs.
    destruct (decide (if_type o ≠ IF_EXTCAP)); [done|].
    destruct (extcap_fifo o) as [p|] eqn:Hp; [|done].
    apply delete_id, (Hgone o); [left| |done].
    destruct (if_type o); [by destruct n|done]. }
  rewrite IH, Hstep; [done|].
  intros o' p Ho' Ht Hp. rewrite Hstep. apply (Hgone o'); [by right|done..].
Qed.

(** C7: running [extcap_cleanup] a second time on the same session hits
    no failing call (no [ws_unlink] of a missing file, in either run),
    leaves on disk no FIFO of any helper-backed entry of the session, and
    changes no file at all. *)
Theorem C7_cleanup_twice (capture_opts : capture_options) (w : world) :
  let once := extcap_cleanup capture_opts w in
  let twice := extcap_cleanup once.1 once.2 in
  unlink_failures twice.2 = unlink_failures w
  /\ (forall (o : interface_options) (p : string),
        o ∈ opts_ifaces twice.1 -> if_type o = IF_EXTCAP ->
        extcap_fifo o = Some p ->
        fs twice.2 !! p = None)
  /\ fs twice.2 = fs once.2
  /\ twice.1 = capture_opts.
Proof.
  cbv zeta. rewrite !extcap_cleanup_fold. cbn [fst snd].
  split; [by rewrite !cleanup_fold_unlink_failures|].
  split; [|split; [|done]].
  - intros o p Ho Ht Hp. by eapply cleanup_fold_removes.
  - apply cleanup_fold_nothing_left.
    intros o p Ho Ht Hp. by eapply cleanup_fold_removes.
Qed.

Lemma extcap_cleanup_keeps_session (capture_opts : capture_options) (w : world) :
  (extcap_cleanup capture_opts w).1 = capture_opts.
Proof. by rewrite extcap_cleanup_fold. Qed.

(** Whenever [create_tempfile] succeeds and [mkfifo] then fails,
    [extcap_create_pipe] still answers TRUE, with [*fifo] as it was and no
    file under the chosen name. *)
Lemma extcap_create_pipe_mkfifo_failure
    (os : os_t) (fifo : cstr) (w : world) (fd : Z) (p : string) :
  os_create_tempfile os (tempfiles w) = (fd, Some p) ->
  fd <> 0%Z ->
  os_mkfifo_ok os p = false ->
  (extcap_create_pipe os fifo w).1 = (true, fifo)
  /\ fs (extcap_create_pipe os fifo w).2 !! p = None.
Proof.
  intros Htmp Hfd Hbad. unfold extcap_create_pipe, create_tempfile.
  rewrite Htmp. apply Z.eqb_neq in Hfd. rewrite Hfd.
  unfold file_exists, ws_unlink, mkfifo. cbn [fs].
  destruct (0 <=? fd)%Z.
  - rewrite lookup_insert_eq. cbn [fs set_fs].
    rewrite lookup_delete_eq, Hbad. cbn. by rewrite lookup_delete_eq.
  - destruct (fs w !! p) eqn:Hp; cbn [fs set_fs].
    + rewrite lookup_delete_eq, Hbad. cbn. by rewrite lookup_delete_eq.
    + rewrite Hp, Hbad. by cbn.
Qed.

(** The one exit of [extcaps_init_initerfaces] with FALSE: a FALSE from
    [extcap_create_pipe] ends the loop on the spot, with the array as it
    was and the world as [extcap_create_pipe] left it. *)
Lemma extcaps_init_loop_abort (os : os_t) (fuel i : nat)
    (capture_opts : capture_options) (w : world) (o : interface_options) :
  opts_ifaces capture_opts !! i = Some o ->
  if_type o = IF_EXTCAP ->
  (extcap_create_pipe os (extcap_fifo o) w).1.1 = false ->
  extcaps_init_loop os (S fuel) i capture_opts w
  = Some (false, capture_opts, (extcap_create_pipe os (extcap_fifo o) w).2).
Proof.
  intros Hi Ht Hko. cbn [extcaps_init_loop]. rewrite Hi.
  destruct (decide (if_type o ≠ IF_EXTCAP)); [done|].
  destruct (extcap_create_pipe os (extcap_fifo o) w) as [[ok fifo] w'].
  simpl in Hko. by subst ok.
Qed.

End Session.

(** ** The program at work *)

(** Discovery over the helpers [A], [B], [C] and [D]: [A] keeps the name
    it shares with [B]. *)
Example discovery_AB :
  registered world_AB "eth-ext" = Some "/x/A"
  /\ registered world_AB "usb-ext" = Some "/x/A"
  /\ registered world_AB "ble-ext" = Some "/x/B"
  /\ map info_name
       (@extcap_interface_list demo_parser
          (demo_os (Some ["A"; "B"; "C"; "D"]) []) None world0).1.1
     = ["eth-ext"; "usb-ext"; "ble-ext"].
Proof. vm_compute. done. Qed.

(** A session of one native and two helper-backed interfaces; the second
    [create_tempfile] returns 0.  The call answers FALSE, the second
    helper is not started, and the FIFO of the first is still there. *)
Example init_second_tempfile_fails :
  exists r,
  @extcaps_init_initerfaces demo_parser os_second_tempfile_fails
    (mk_capture_options [en0_configured; eth_configured; ble_configured])
    world0 = Some r
  /\ r.1.1 = false
  /\ fs r.2 !! "/tmp/wireshark_extcap" = Some Fifo
  /\ spawned r.2
     = [[Some "/x/A"; Some "--capture"; Some "--extcap-interface";
         Some "eth-ext"; Some "--fifo"; Some "/tmp/wireshark_extcap"; None]]
  /\ opts_ifaces r.1.2 !! 2%nat = Some ble_configured.
Proof. eexists. split; [vm_compute; reflexivity|]. vm_compute. done. Qed.

(** ** The claims on concrete runs *)

(** C1: [create_tempfile] succeeds, [mkfifo] fails.  [extcap_create_pipe]
    answers TRUE although [*fifo] is still NULL and no file, FIFO or
    other, exists afterwards. *)
Theorem C1_mkfifo_failure_returns_TRUE :
  let os := demo_os None ["/tmp/wireshark_extcap"] in
  os_create_tempfile os 0 = (3%Z, Some "/tmp/wireshark_extcap")
  /\ os_mkfifo_ok os "/tmp/wireshark_extcap" = false
  /\ (extcap_create_pipe os None world0).1 = (true, None)
  /\ fs (extcap_create_pipe os None world0).2 = ∅.
Proof. vm_compute. done. Qed.

(** C5: a session of one helper-backed interface whose [mkfifo] fails.
    [extcaps_init_initerfaces] answers TRUE: the helper is started with a
    NULL in place of the channel path, no channel exists, and the entry is
    stored with a NULL [extcap_fifo] and the helper's pid. *)
Theorem C5_mkfifo_failure_does_not_abort :
  let os := demo_os None ["/tmp/wireshark_extcap"] in
  exists r,
  @extcaps_init_initerfaces demo_parser os
    (mk_capture_options [eth_configured]) world0 = Some r
  /\ os_mkfifo_ok os "/tmp/wireshark_extcap" = false
  /\ r.1.1 = true
  /\ spawned r.2
     = [[Some "/x/A"; Some "--capture"; Some "--extcap-interface";
         Some "eth-ext"; Some "--fifo"; None; None]]
  /\ fs r.2 = ∅
  /\ opts_ifaces r.1.2
     = [mk_interface_options "eth-ext" IF_EXTCAP "/x/A" None 4242%Z None].
Proof.
  cbv zeta. eexists. split; [vm_compute; reflexivity|]. vm_compute. done.
Qed.

(** C6: a session of one helper-backed interface with pid 4242.
    [extcap_cleanup] releases the handle, but the pid stored in the session
    is 4242 as before, not [(GPid)-1]; a second run releases 4242 again. *)
Theorem C6_cleanup_keeps_stored_pid :
  let once := extcap_cleanup (mk_capture_options [eth_running]) world_running in
  let twice := extcap_cleanup once.1 once.2 in
  closed_pids once.2 = [4242%Z]
  /\ map extcap_pid (opts_ifaces once.1) = [4242%Z]
  /\ 4242%Z <> GPid_invalid
  /\ closed_pids twice.2 = [4242%Z; 4242%Z].
Proof. vm_compute. repeat split; discriminate. Qed.

(** C2 fails as stated: the helper [A], owner of "eth-ext", is no longer
    in the directory when the queries run; neither query starts a
    process. *)
Lemma C2_counterexample :
  let os := demo_os (Some ["B"; "C"; "D"]) [] in
  registered world_AB "eth-ext" = Some "/x/A"
  /\ ~ one_helper_spawned
         (@spawned_by_dlts demo_parser os "eth-ext" None world_AB) "/x/A"
  /\ ~ one_helper_spawned
         (@spawned_by_configuration demo_parser os "eth-ext" world_AB) "/x/A".
Proof.
  cbv zeta.
  assert (@spawned_by_dlts demo_parser (demo_os (Some ["B"; "C"; "D"]) [])
            "eth-ext" None world_AB = []) as -> by (vm_compute; reflexivity).
  assert (@spawned_by_configuration demo_parser
            (demo_os (Some ["B"; "C"; "D"]) []) "eth-ext" world_AB = []) as ->
    by (vm_compute; reflexivity).
  split; [vm_compute; reflexivity|].
  split; intros (argv & Habs & _); discriminate.
Qed.

(** C9 fails as stated for the configuration query: the owner of
    "eth-ext" runs with status 0 and prints nothing, and the query hands
    back a list of one element, not a failure. *)
Lemma C9_counterexample :
  let os := demo_os (Some ["A"; "B"; "C"; "D"]) [] in
  registered world_AB "eth-ext" = Some "/x/A"
  /\ os_spawn_sync os (@configuration_argv demo_parser "/x/A" "eth-ext")
     = (true, 0%Z, "")
  /\ @extcap_parse_args demo_parser
       (@extcap_tokenize_sentences demo_parser "") = []
  /\ (@extcap_get_if_configuration demo_parser os (Some "eth-ext") world_AB).1
     = [[]]
  /\ ~ configuration_reports_failure
         (@extcap_get_if_configuration demo_parser os (Some "eth-ext") world_AB).1.
Proof.
  cbv zeta.
  assert ((@extcap_get_if_configuration demo_parser
             (demo_os (Some ["A"; "B"; "C"; "D"]) []) (Some "eth-ext") world_AB).1
          = [[]]) as -> by (vm_compute; reflexivity).
  repeat split; try (vm_compute; reflexivity).
  unfold configuration_reports_failure. discriminate.
Qed.

(** ** The theorems applied to the helpers [A] to [D] *)

(** C3 on a name no helper advertised. *)
Lemma C3_witness :
  registered world_AB "wlan0" = None
  /\ @extcap_get_if_dlts demo_parser (demo_os (Some ["A"; "B"; "C"; "D"]) [])
       (Some "wlan0") (Some (Some "stale")) world_AB
     = (None, Some None, world_AB)
  /\ @extcap_get_if_configuration demo_parser
       (demo_os (Some ["A"; "B"; "C"; "D"]) []) (Some "wlan0") world_AB
     = ([], world_AB).
Proof.
  assert (registered world_AB "wlan0" = None) as H by (vm_compute; reflexivity).
  split; [exact H|].
  destruct (@C3_unregistered_name_is_inert demo_parser
              (demo_os (Some ["A"; "B"; "C"; "D"]) []) "wlan0"
              (Some (Some "stale")) world_AB H) as (Hd & Hc & _).
  split; [exact Hd|exact Hc].
Defined.

(** C4 on the second claim for "eth-ext": [B] advertises it after [A]. *)
Lemma C4_witness :
  registered world_AB "eth-ext" = Some "/x/A"
  /\ registered
       (@interfaces_cb demo_parser "/x/B" "eth-ext ble-ext" [] None world_AB).2
       "eth-ext" = Some "/x/A"
  /\ registered (extcap_if_add "eth-ext" "/x/B" world_AB) "eth-ext"
     = Some "/x/A".
Proof.
  assert (registered world_AB "eth-ext" = Some "/x/A") as H
    by (vm_compute; reflexivity).
  split; [exact H|].
  destruct (@C4_first_registration_wins demo_parser
              (demo_os (Some ["A"; "B"; "C"; "D"]) []) None world_AB)
    as (_ & _ & _ & Hcb & Hadd).
  split.
  - exact (proj1 (Hcb "/x/B" "eth-ext ble-ext" [] None "eth-ext" "/x/A" H)).
  - exact (Hadd "eth-ext" "/x/B" "eth-ext" "/x/A" H).
Defined.

(** C8 on helper [C], which exits with status 1 between [B] and [D]. *)
Lemma C8_witness :
  let os := demo_os (Some ["A"; "B"; "C"; "D"]) [] in
  (os_spawn_sync os (@list_interfaces_argv demo_parser os "C")).1.2 = 1%Z
  /\ (@extcap_interface_list demo_parser os None world0).1
     = (@extcap_interface_list demo_parser
          (with_dir (Some (["A"; "B"] ++ ["D"])) os) None world0).1
  /\ spawned (@extcap_interface_list demo_parser os None world0).2
     = spawned world0
       ++ map (@list_interfaces_argv demo_parser os) (["A"; "B"] ++ "C" :: ["D"]).
Proof.
  cbv zeta. split; [vm_compute; reflexivity|].
  destruct (@C8_failed_helper_contributes_nothing demo_parser
              (demo_os (Some ["A"; "B"; "C"; "D"]) []) ["A"; "B"] ["D"] "C"
              None world0)
    as (Hret & _ & _ & _ & Hspawn & _).
  - reflexivity.
  - right. vm_compute. discriminate.
  - split; [exact Hret|exact Hspawn].
Defined.

(** C2 on "eth-ext" with its owner [A] in the directory. *)
Lemma C2_witness :
  let os := demo_os (Some ["A"; "B"; "C"; "D"]) [] in
  NoDup (dir_entries os)
  /\ registered world_AB "eth-ext" = Some "/x/A"
  /\ @spawned_by_dlts demo_parser os "eth-ext" None world_AB
     = [@dlts_argv demo_parser "/x/A" "eth-ext"]
  /\ @spawned_by_configuration demo_parser os "eth-ext" world_AB
     = [@configuration_argv demo_parser "/x/A" "eth-ext"].
Proof.
  cbv zeta.
  assert (NoDup (dir_entries (demo_os (Some ["A"; "B"; "C"; "D"]) []))) as Hnd
    by (apply (bool_decide_unpack _); vm_compute; reflexivity).
  assert (registered world_AB "eth-ext" = Some "/x/A") as H
    by (vm_compute; reflexivity).
  split; [exact Hnd|]. split; [exact H|].
  destruct (@C2_only_the_owner_is_spawned demo_parser
              (demo_os (Some ["A"; "B"; "C"; "D"]) []) "eth-ext" "/x/A" None
              world_AB Hnd H) as (Hpresent & _).
  apply Hpresent. exists "A". split; [|vm_compute; reflexivity].
  apply (bool_decide_unpack _). vm_compute. reflexivity.
Defined.

(** C9 on "eth-ext": [A] prints nothing when asked for link types or
    configuration. *)
Lemma C9_witness :
  let os := demo_os (Some ["A"; "B"; "C"; "D"]) [] in
  (@extcap_get_if_dlts demo_parser os (Some "eth-ext") (Some (Some "stale"))
     world_AB).1
    = (None, Some (Some "Extcap returned no DLTs"))
  /\ (@extcap_get_if_configuration demo_parser os (Some "eth-ext") world_AB).1
     = [[]].
Proof.
  cbv zeta.
  destruct (@C9_zero_records_reporting demo_parser
              (demo_os (Some ["A"; "B"; "C"; "D"]) []) "eth-ext" "A"
              (Some (Some "stale")) world_AB) as (Hd & Hc).
  - apply (bool_decide_unpack _). vm_compute. reflexivity.
  - apply (bool_decide_unpack _). vm_compute. reflexivity.
  - vm_compute. reflexivity.
  - split.
    + apply (Hd ""); vm_compute; reflexivity.
    + apply (Hc ""); vm_compute; reflexivity.
Defined.

(** C7 on the running session: after two teardowns its FIFO is gone. *)
Lemma C7_witness :
  let once := extcap_cleanup (mk_capture_options [eth_running]) world_running in
  let twice := extcap_cleanup once.1 once.2 in
  fs world_running !! "/tmp/wireshark_extcap" = Some Fifo
  /\ unlink_failures twice.2 = 0%nat
  /\ fs twice.2 !! "/tmp/wireshark_extcap" = None.
Proof.
  cbv zeta. split; [vm_compute; reflexivity|].
  destruct (C7_cleanup_twice (mk_capture_options [eth_running]) world_running)
    as (Herr & Hgone & _ & Hsame).
  split; [exact Herr|].
  apply (Hgone eth_running).
  - rewrite Hsame. apply list_elem_of_here.
  - reflexivity.
  - reflexivity.
Defined.

(** * Further properties of the code *)

(** ** The registry functions together *)

Section RegistryMore.

Context {P : extcap_parser}.

Lemma extcap_if_executable_registered (n : string) (w : world) :
  extcap_if_executable (Some n) w = registered w n.
Proof.
  unfold extcap_if_executable. rewrite extcap_if_exists_registered.
  unfold registered. by destruct (g_hash_table_lookup (ifaces w) n).
Qed.

(** X1: the three lookups of the registry agree.  [extcap_if_exists]
    answers TRUE exactly when [extcap_if_executable] returns a path, and
    [extcap_if_exists_for_extcap] answers TRUE exactly for that path; a
    NULL name or a NULL table gives FALSE and NULL. *)
Theorem X1_registry_lookups_agree (ifname : cstr) (w : world) :
  (extcap_if_exists ifname w = true
   <-> exists p, extcap_if_executable ifname w = Some p)
  /\ (forall path : string,
        extcap_if_exists_for_extcap ifname path w = true
        <-> extcap_if_executable ifname w = Some path)
  /\ (ifname = None \/ ifaces w = None ->
      extcap_if_exists ifname w = false
      /\ extcap_if_executable ifname w = None
      /\ forall path, extcap_if_exists_for_extcap ifname path w = false).
Proof.
  destruct ifname as [n|].
  - rewrite extcap_if_executable_registered, extcap_if_exists_registered.
    split; [|split].
    + destruct (registered w n); split; eauto; try done. by intros [? ?].
    + intros path. rewrite extcap_if_exists_for_extcap_registered.
      destruct (registered w n) as [e|]; [|done].
      destruct (String.eqb_spec e path); split; congruence.
    + intros [?|Hw]; [done|].
      assert (registered w n = None) as Hn by (unfold registered; by rewrite Hw).
      split; [by rewrite Hn|]. split; [done|].
      intros path. by rewrite extcap_if_exists_for_extcap_registered, Hn.
  - split; [|split].
    + split; [done|]. by intros [? ?].
    + done.
    + done.
Qed.

(** X2: insert, then look up.  Once the table exists, registering a name
    that is free makes the name exist, makes [extcap_if_executable] return
    the path just given, and makes [extcap_if_exists_for_extcap] true for
    that path and no other. *)
Theorem X2_add_then_lookup (a path : string) (w : world) :
  ifaces w <> None ->
  registered w a = None ->
  extcap_if_exists (Some a) (extcap_if_add a path w) = true
  /\ extcap_if_executable (Some a) (extcap_if_add a path w) = Some path
  /\ forall q : string,
       extcap_if_exists_for_extcap (Some a) q (extcap_if_add a path w)
       = String.eqb path q.
Proof.
  intros Hw Ha.
  assert (registered (extcap_if_add a path w) a = Some path) as Hreg.
  { rewrite extcap_if_add_registered, Ha.
    destruct (ifaces w); [|done]. by rewrite String.eqb_refl. }
  split; [by rewrite extcap_if_exists_registered, Hreg|].
  split; [by rewrite extcap_if_executable_registered|].
  intros q. by rewrite extcap_if_exists_for_extcap_registered, Hreg.
Qed.

(** X3: [extcap_if_add] changes nothing but the entry of its own name:
    the owner of every other name, and everything outside the table, is
    as before; and a second registration of the same name, under whatever
    path, is a no-op. *)
Theorem X3_add_is_local (a path path' : string) (w : world) :
  (forall n : string, n <> a ->
     registered (extcap_if_add a path w) n = registered w n)
  /\ extcap_if_add a path w = set_ifaces (ifaces (extcap_if_add a path w)) w
  /\ extcap_if_add a path' (extcap_if_add a path w) = extcap_if_add a path w.
Proof.
  split; [|split].
  - intros n Hn. rewrite extcap_if_add_registered.
    destruct (registered w n) eqn:Hr; [done|].
    destruct (ifaces w); [|done].
    destruct (String.eqb_spec a n); [congruence|done].
  - unfold extcap_if_add.
    destruct (ifaces w) as [m|] eqn:Hm; [destruct (m !! a)|]; simpl;
      rewrite <- ?Hm; by destruct w.
  - unfold extcap_if_add.
    destruct (ifaces w) as [m|] eqn:Hm; [|by rewrite Hm].
    destruct (m !! a) eqn:Ha; simpl.
    + by rewrite Hm, Ha.
    + by rewrite lookup_insert_eq.
Qed.

End RegistryMore.

(** ** More on discovery *)

Set Warnings "-clear-no-such-hyp".

Section DiscoveryMore.

Context {P : extcap_parser}.

Lemma scan_not_NULL (os : os_t) (files : list string) :
  forall st : list if_info_t * option (gmap string string),
    st.2 <> None -> (scan os files st).2 <> None.
Proof.
  unfold scan. induction files as [|file files IH]; intros st Hst; simpl; [done|].
  apply IH. by apply (scan_step_lookup os file st "").
Qed.

(** X4: a discovery pass runs every entry of the helper directory once,
    in directory order and with the "list interfaces" argv, whatever the
    helpers answer; it leaves the files, the process handles and the
    temporary-file counter alone, leaves a table behind, and does nothing
    to [*err_str] but reset it to NULL. *)
Theorem X4_discovery_runs_every_entry_once
    (os : os_t) (err_str : err_ptr) (w : world) :
  spawned (extcap_interface_list os err_str w).2
  = spawned w ++ map (list_interfaces_argv os) (dir_entries os)
  /\ fs (extcap_interface_list os err_str w).2 = fs w
  /\ tempfiles (extcap_interface_list os err_str w).2 = tempfiles w
  /\ closed_pids (extcap_interface_list os err_str w).2 = closed_pids w
  /\ unlink_failures (extcap_interface_list os err_str w).2 = unlink_failures w
  /\ ifaces (extcap_interface_list os err_str w).2 <> None
  /\ (extcap_interface_list os err_str w).1.2 = clear_err err_str.
Proof.
  rewrite extcap_interface_list_scan. unfold dir_entries.
  destruct (os_dir os) as [files|]; simpl.
  - repeat split; try done. by apply scan_not_NULL.
  - rewrite app_nil_r. repeat split; done.
Qed.

Lemma extcap_if_exists_dom (n : string) (w : world) (m : gmap string string) :
  ifaces w = Some m ->
  extcap_if_exists (Some n) w = bool_decide (n ∈ dom m).
Proof.
  intros Hm. rewrite extcap_if_exists_registered. unfold registered.
  rewrite Hm. simpl.
  destruct (m !! n) eqn:Hn.
  - symmetry. apply bool_decide_eq_true. apply elem_of_dom. eauto.
  - symmetry. apply bool_decide_eq_false. by apply not_elem_of_dom.
Qed.

Lemma first_records_app (l1 : list if_info_t) :
  forall (seen : gset string) (l2 : list if_info_t),
    first_records seen (l1 ++ l2)
    = first_records seen l1
      ++ first_records (seen ∪ list_to_set (info_name <$> l1)) l2.
Proof.
  induction l1 as [|r l1 IH]; intros seen l2; simpl.
  - by assert (seen ∪ ∅ = seen) as -> by set_solver.
  - case_bool_decide as Hr.
    + rewrite IH. f_equal. f_equal. set_solver.
    + simpl. rewrite IH. do 2 f_equal. f_equal. set_solver.
Qed.

(** The loop of [interfaces_cb] appends the records of the names that are
    new, and registers every name it was given. *)
Lemma interfaces_cb_loop_first (path : string) (ifs : list extcap_interface) :
  forall (il : list if_info_t) (w : world) (m : gmap string string),
    ifaces w = Some m ->
    (interfaces_cb_loop path ifs il w).1
    = il ++ first_records (dom m) (map (advert_record path) ifs)
    /\ exists m' : gmap string string,
         ifaces (interfaces_cb_loop path ifs il w).2 = Some m'
         /\ dom m' = dom m ∪ list_to_set (call <$> ifs).
Proof.
  induction ifs as [|i ifs IH]; intros il w m Hm; simpl.
  - rewrite app_nil_r. split; [done|]. exists m. split; [done|]. set_solver.
  - rewrite (extcap_if_exists_dom _ _ _ Hm).
    case_bool_decide as Hi.
    + destruct (IH il w m Hm) as (Hil & m' & Hm' & Hdom).
      split; [done|]. exists m'. split; [done|]. set_solver.
    + assert (ifaces (extcap_if_add (call i) path w)
              = Some (<[call i := path]> m)) as Hadd.
      { unfold extcap_if_add. rewrite Hm.
        apply not_elem_of_dom in Hi. by rewrite Hi. }
      destruct (IH (il ++ [mk_if_info (call i) (display i) IF_EXTCAP path])
                   _ _ Hadd) as (Hil & m' & Hm' & Hdom).
      split.
      * rewrite Hil, <- app_assoc. simpl. by rewrite dom_insert_L.
      * exists m'. split; [done|]. rewrite Hdom, dom_insert_L. set_solver.
Qed.

Lemma scan_first (os : os_t) (files : list string) :
  forall (il : list if_info_t) (m : gmap string string),
    (scan os files (il, Some m)).1
    = il ++ first_records (dom m) (concat (map (helper_records os) files))
    /\ exists m' : gmap string string,
         (scan os files (il, Some m)).2 = Some m'.
Proof.
  unfold scan. induction files as [|file files IH]; intros il m; simpl.
  - rewrite app_nil_r. eauto.
  - assert (exists m1 : gmap string string,
      scan_step os (il, Some m) file
      = (il ++ first_records (dom m) (helper_records os file), Some m1)
      /\ dom m1 = dom m ∪ list_to_set (info_name <$> helper_records os file))
      as (m1 & -> & Hdom).
    { unfold scan_step, helper_records.
      destruct (os_spawn_sync os _) as [[status exit_status] output].
      destruct (status && (exit_status =? 0)%Z).
      - destruct (interfaces_cb_loop_first
          (extcap_path (os_extcap_dir os) file)
          (extcap_parse_interfaces (extcap_tokenize_sentences output))
          il (mk_world (Some m) ∅ 0 [] [] 0) m eq_refl) as (Hil & m1 & Hm1 & Hd).
        exists m1. split.
        + apply injective_projections.
          * by rewrite claim_interfaces_fst.
          * by rewrite claim_interfaces_snd.
        + rewrite Hd. f_equal. f_equal.
          rewrite <- list_fmap_compose. done.
      - exists m. simpl. rewrite app_nil_r. split; [done|]. set_solver. }
    destruct (IH (il ++ first_records (dom m) (helper_records os file)) m1)
      as (Hil & m' & Hm').
    split; [|eauto].
    rewrite Hil, first_records_app, <- app_assoc, Hdom. done.
Qed.

Lemma extcap_interface_list_first_records
    (os : os_t) (err_str : err_ptr) (w : world) :
  (extcap_interface_list os err_str w).1.1
  = first_records ∅ (advert_records os).
Proof.
  rewrite extcap_interface_list_scan. unfold advert_records, dir_entries.
  destruct (os_dir os) as [files|]; simpl; [|done].
  destruct (scan_first os files [] ∅) as (-> & _).
  by rewrite dom_empty_L.
Qed.

(** X5: the list [extcap_interface_list] returns is exactly the list of
    all records the helpers offer (those that ran with status 0), in
    directory order and then in parser order, from which every record
    whose name occurred earlier has been dropped. *)
Theorem X5_discovery_list (os : os_t) (err_str : err_ptr) (w : world) :
  (extcap_interface_list os err_str w).1.1
  = first_records ∅ (advert_records os).
Proof. apply extcap_interface_list_first_records. Qed.

Lemma first_records_elem (l : list if_info_t) :
  forall (seen : gset string) (r : if_info_t),
    r ∈ first_records seen l -> (info_name r ∉ seen) /\ (r ∈ l).
Proof.
  induction l as [|r0 l IH]; intros seen r Hr; simpl in Hr.
  - by apply elem_of_nil in Hr.
  - case_bool_decide as H0.
    + destruct (IH _ _ Hr). split; [done|by right].
    + apply elem_of_cons in Hr as [->|Hr]; [split; [done|left]|].
      destruct (IH _ _ Hr) as [Hn ?]. split; [set_solver|by right].
Qed.

Lemma first_records_NoDup (l : list if_info_t) :
  forall seen : gset string, NoDup (info_name <$> first_records seen l).
Proof.
  induction l as [|r0 l IH]; intros seen; simpl; [constructor|].
  case_bool_decide as H0; [apply IH|].
  simpl. constructor; [|apply IH].
  intros (r & Hname & Hr)%list_elem_of_fmap.
  apply first_records_elem in Hr as [Hr _]. set_solver.
Qed.

Lemma first_records_id (l : list if_info_t) :
  forall seen : gset string,
    NoDup (info_name <$> l) ->
    (forall r, r ∈ l -> info_name r ∉ seen) ->
    first_records seen l = l.
Proof.
  induction l as [|r0 l IH]; intros seen Hnd Hseen; simpl; [done|].
  apply NoDup_cons in Hnd as [Hr0 Hnd].
  rewrite bool_decide_eq_false_2 by (apply Hseen; left).
  f_equal. apply IH; [done|].
  intros r Hr. pose proof (Hseen r (list_elem_of_further _ _ _ Hr)).
  assert (info_name r <> info_name r0); [|set_solver].
  intros Heq. apply Hr0. rewrite <- Heq. by apply list_elem_of_fmap_2.
Qed.

(** In the surviving records every name goes with its first owner, and
    every first owner of a name not seen before survives. *)
Lemma first_records_owner (l : list if_info_t) :
  forall seen : gset string,
    (forall r, r ∈ first_records seen l ->
       first_owner (info_name r)
         (map (fun r => (info_name r, info_extcap r)) l)
       = Some (info_extcap r))
    /\ (forall n p, n ∉ seen ->
          first_owner n (map (fun r => (info_name r, info_extcap r)) l) = Some p ->
          exists r, r ∈ first_records seen l
                    /\ info_name r = n /\ info_extcap r = p).
Proof.
  induction l as [|r0 l IH]; intros seen; simpl.
  - split; [by intros r ?%elem_of_nil|done].
  - case_bool_decide as H0.
    + destruct (IH seen) as [IH1 IH2]. split.
      * intros r Hr. pose proof (first_records_elem _ _ _ Hr) as [Hn _].
        destruct (String.eqb_spec (info_name r0) (info_name r)) as [Heq|];
          [congruence|auto].
      * intros n p Hn Hp.
        destruct (String.eqb_spec (info_name r0) n) as [Heq|];
          [congruence|auto].
    + destruct (IH ({[info_name r0]} ∪ seen)) as [IH1 IH2]. split.
      * intros r [->|Hr]%elem_of_cons; [by rewrite String.eqb_refl|].
        pose proof (first_records_elem _ _ _ Hr) as [Hn _].
        destruct (String.eqb_spec (info_name r0) (info_name r)) as [Heq|];
          [set_solver|auto].
      * intros n p Hn Hp.
        destruct (String.eqb_spec (info_name r0) n) as [Heq|].
        -- injection Hp as <-. exists r0. split; [left|done].
        -- destruct (IH2 n p) as (r & Hr & ? & ?); [set_solver|done|].
           exists r. split; [by right|done].
Qed.

Lemma helper_adverts_records (os : os_t) (file : string) :
  helper_adverts os file
  = map (fun r => (info_name r, info_extcap r)) (helper_records os file).
Proof.
  unfold helper_adverts, helper_records.
  destruct (os_spawn_sync os _) as [[status exit_status] output].
  destruct (status && (exit_status =? 0)%Z); [|done].
  by rewrite map_map.
Qed.

Lemma adverts_records (os : os_t) :
  adverts os = map (fun r => (info_name r, info_extcap r)) (advert_records os).
Proof.
  unfold adverts, advert_records, dir_entries.
  destruct (os_dir os) as [files|]; simpl; [|done].
  rewrite concat_map, map_map. f_equal.
  apply map_ext. intros file. apply helper_adverts_records.
Qed.

Lemma discovery_registered (os : os_t) (err_str : err_ptr) (w : world)
    (n : string) :
  registered (extcap_interface_list os err_str w).2 n
  = first_owner n (adverts os).
Proof.
  rewrite extcap_interface_list_scan. unfold adverts, registered.
  destruct (os_dir os) as [files|]; [|done]. simpl.
  by rewrite scan_lookup.
Qed.

Lemma advert_records_type (os : os_t) (r : if_info_t) :
  r ∈ advert_records os -> info_type r = IF_EXTCAP.
Proof.
  unfold advert_records.
  intros (l & Hl & Hr)%list_elem_of_In%in_concat.
  apply in_map_iff in Hl as (file & <- & _).
  unfold helper_records in Hr.
  destruct (os_spawn_sync os _) as [[status exit_status] output].
  destruct (status && (exit_status =? 0)%Z); [|done].
  by apply in_map_iff in Hr as (i & <- & _).
Qed.

(** X6: the list a discovery pass returns and the registry it leaves
    agree.  No two records of the list carry the same name; every record
    is of type [IF_EXTCAP] and the registry maps its name to its helper;
    and every name the registry holds has its record in the list. *)
Theorem X6_discovery_list_agrees_with_registry
    (os : os_t) (err_str : err_ptr) (w : world) :
  NoDup (info_name <$> (extcap_interface_list os err_str w).1.1)
  /\ (forall r : if_info_t,
        r ∈ (extcap_interface_list os err_str w).1.1 ->
        registered (extcap_interface_list os err_str w).2 (info_name r)
        = Some (info_extcap r)
        /\ info_type r = IF_EXTCAP)
  /\ (forall n p : string,
        registered (extcap_interface_list os err_str w).2 n = Some p ->
        exists r : if_info_t,
          r ∈ (extcap_interface_list os err_str w).1.1
          /\ info_name r = n /\ info_extcap r = p).
Proof.
  rewrite extcap_interface_list_first_records.
  destruct (first_records_owner (advert_records os) ∅) as [H1 H2].
  split; [apply first_records_NoDup|]. split.
  - intros r Hr. rewrite discovery_registered, adverts_records. split; [auto|].
    apply first_records_elem in Hr as [_ Hr]. by eapply advert_records_type.
  - intros n p. rewrite discovery_registered, adverts_records.
    intros Hp. apply H2; [set_solver|done].
Qed.

(** X7: when the helpers that run advertise names that are all
    different, the list returned is the list of all their records,
    unchanged: directory order first, parser order within a helper. *)
Theorem X7_discovery_of_disjoint_names
    (os : os_t) (err_str : err_ptr) (w : world) :
  NoDup (info_name <$> advert_records os) ->
  (extcap_interface_list os err_str w).1.1 = advert_records os.
Proof.
  intros Hnd. rewrite extcap_interface_list_first_records.
  apply first_records_id; [done|]. set_solver.
Qed.

Lemma log_spawns_nil (w : world) : log_spawns [] w = w.
Proof. unfold log_spawns. rewrite app_nil_r. by destruct w. Qed.

Lemma log_spawns_log_spawn (a : list cstr) (l : list (list cstr)) (w : world) :
  log_spawns l (log_spawn a w) = log_spawns (a :: l) w.
Proof. unfold log_spawns, log_spawn. simpl. by rewrite <- app_assoc. Qed.

Lemma log_spawn_log_spawns (a : list cstr) (l : list (list cstr)) (w : world) :
  log_spawn a (log_spawns l w) = log_spawns (l ++ [a]) w.
Proof. unfold log_spawns, log_spawn. simpl. by rewrite <- app_assoc. Qed.

(** With a NULL interface name, helpers that cannot be run are started
    and passed over. *)
Lemma foreach_failed_prefix {D : Type} (os : os_t) (argc : nat)
    (args : list cstr) (cb : extcap_cb_t D) (l1 rest : list string) :
  forall (d : D) (e : err_ptr) (w : world),
    Forall (fun f => run_failed os (foreach_argv os argc args f)) l1 ->
    extcap_foreach_loop os (os_extcap_dir os) argc args cb None (l1 ++ rest)
      true d e w
    = extcap_foreach_loop os (os_extcap_dir os) argc args cb None rest
        true d e (log_spawns (map (foreach_argv os argc args) l1) w).
Proof.
  induction l1 as [|f l1 IH]; intros d e w Hl1; simpl.
  - by rewrite log_spawns_nil.
  - apply Forall_cons in Hl1 as [Hf Hl1].
    unfold run_failed, foreach_argv in Hf.
    destruct (os_spawn_sync os _) as [[status exit_status] output].
    cbn [fst snd] in Hf. rewrite Hf, IH by done.
    by rewrite log_spawns_log_spawn.
Qed.

(** X8: [extcap_foreach] stops at the first callback that answers FALSE.
    Scanning with a NULL interface name, the helpers that cannot be run
    are started and passed over, the first helper that exits with status
    0 gets the callback, and when the callback answers FALSE the result
    is the callback's: the entries after it are not started. *)
Theorem X8_foreach_stops_on_FALSE {D : Type}
    (os : os_t) (argc : nat) (args : list cstr) (cb : extcap_cb_t D)
    (l1 l2 : list string) (f out : string) (d : D) (e : err_ptr) (w : world) :
  os_dir os = Some (l1 ++ f :: l2) ->
  Forall (fun f' => run_failed os (foreach_argv os argc args f')) l1 ->
  os_spawn_sync os (foreach_argv os argc args f) = (true, 0%Z, out) ->
  (cb (extcap_path (os_extcap_dir os) f) out d e
      (log_spawns (map (foreach_argv os argc args) (l1 ++ [f])) w)).1.1.1
    = false ->
  extcap_foreach os argc args cb d e None w
  = let c := cb (extcap_path (os_extcap_dir os) f) out d e
               (log_spawns (map (foreach_argv os argc args) (l1 ++ [f])) w) in
    (c.1.1.2, c.1.2, c.2).
Proof.
  intros Hdir Hl1 Hf Hstop. unfold extcap_foreach. rewrite Hdir.
  rewrite foreach_failed_prefix by done.
  cbn [extcap_foreach_loop]. rewrite extcap_if_exists_NULL. cbn [andb].
  unfold foreach_argv in Hf. rewrite Hf. cbn [andb Z.eqb].
  rewrite log_spawn_log_spawns.
  change (Some (extcap_path (os_extcap_dir os) f) :: take argc args ++ [None])
    with (foreach_argv os argc args f).
  rewrite map_app in Hstop |- *. cbn [map] in Hstop |- *. cbv zeta.
  destruct (cb _ _ _ _ _) as [[[kg d'] e'] w']. simpl in Hstop. subst kg.
  simpl. by destruct l2.
Qed.

End DiscoveryMore.

(** ** More on the capability queries *)

Section QueriesMore.

Context {P : extcap_parser}.

Lemma dlt_cb_loop_map (l : list extcap_dlt) :
  forall acc : list data_link_info_t,
    dlt_cb_loop l acc = acc ++ map data_link_info_of l.
Proof.
  induction l as [|d l IH]; intros acc; simpl.
  - by rewrite app_nil_r.
  - by rewrite IH, <- app_assoc.
Qed.

(** X9: the link-type query on its good path.  When the owner of a
    registered name runs with exit status 0 and its output yields at
    least one link type, [extcap_get_if_dlts] returns capabilities whose
    monitor-mode flag is FALSE and whose link types are the parsed ones,
    field by field and in the parser's order, and [*err_str] is NULL. *)
Theorem X9_get_if_dlts_success
    (os : os_t) (n f : string) (err_str : err_ptr) (w : world) (out : string) :
  NoDup (dir_entries os) -> f ∈ dir_entries os ->
  registered w n = Some (extcap_path (os_extcap_dir os) f) ->
  os_spawn_sync os (dlts_argv (extcap_path (os_extcap_dir os) f) n)
    = (true, 0%Z, out) ->
  extcap_parse_dlts (extcap_tokenize_sentences out) <> [] ->
  (extcap_get_if_dlts os (Some n) err_str w).1
  = (Some (mk_if_capabilities false
             (map data_link_info_of
                  (extcap_parse_dlts (extcap_tokenize_sentences out)))),
     clear_err err_str).
Proof.
  intros Hnd Hf Hn Hrun Hne.
  rewrite (extcap_get_if_dlts_present os n f) by done.
  cbv zeta. rewrite Hrun. cbn [fst snd andb Z.eqb].
  unfold dlt_cb. rewrite dlt_cb_loop_map. cbn [app].
  destruct (extcap_parse_dlts (extcap_tokenize_sentences out)); done.
Qed.

(** X10: the configuration query on its good path.  When the owner of a
    registered name runs with exit status 0, [extcap_get_if_configuration]
    returns a list of one element, the argument list parsed from the
    owner's output. *)
Theorem X10_get_if_configuration_success
    (os : os_t) (n f : string) (w : world) (out : string) :
  NoDup (dir_entries os) -> f ∈ dir_entries os ->
  registered w n = Some (extcap_path (os_extcap_dir os) f) ->
  os_spawn_sync os (configuration_argv (extcap_path (os_extcap_dir os) f) n)
    = (true, 0%Z, out) ->
  (extcap_get_if_configuration os (Some n) w).1
  = [extcap_parse_args (extcap_tokenize_sentences out)].
Proof.
  intros Hnd Hf Hn Hrun.
  rewrite (extcap_get_if_configuration_present os n f) by done.
  cbv zeta. by rewrite Hrun.
Qed.

(** X11: when the owner of a registered name cannot be started or exits
    with a nonzero status, the callback is not run: [extcap_get_if_dlts]
    returns NULL and leaves NULL, not a message, in [*err_str], and
    [extcap_get_if_configuration] returns the empty list. *)
Theorem X11_queries_when_owner_cannot_run
    (os : os_t) (n f : string) (err_str : err_ptr) (w : world) :
  NoDup (dir_entries os) -> f ∈ dir_entries os ->
  registered w n = Some (extcap_path (os_extcap_dir os) f) ->
  (run_failed os (dlts_argv (extcap_path (os_extcap_dir os) f) n) ->
   (extcap_get_if_dlts os (Some n) err_str w).1 = (None, clear_err err_str))
  /\ (run_failed os (configuration_argv (extcap_path (os_extcap_dir os) f) n) ->
      (extcap_get_if_configuration os (Some n) w).1 = []).
Proof.
  intros Hnd Hf Hn. unfold run_failed. split; intros Hfail.
  - rewrite (extcap_get_if_dlts_present os n f) by done.
    cbv zeta. by rewrite Hfail.
  - rewrite (extcap_get_if_configuration_present os n f) by done.
    cbv zeta. by rewrite Hfail.
Qed.

Lemma extcap_if_exists_for_extcap_frame (ifname : cstr) (path : string)
    (w1 w2 : world) :
  ifaces w1 = ifaces w2 ->
  extcap_if_exists_for_extcap ifname path w1
  = extcap_if_exists_for_extcap ifname path w2.
Proof.
  intros Hw. unfold extcap_if_exists_for_extcap.
  rewrite (extcap_if_exists_frame _ w1 w2 Hw). by rewrite Hw.
Qed.

(** With a callback that leaves the world alone, the loop of
    [extcap_foreach] only adds to the spawn log, and what it adds are
    entries of the directory that pass the ownership test. *)
Lemma foreach_frame {D : Type} (os : os_t) (argc : nat) (args : list cstr)
    (cb : extcap_cb_t D) (ifname : cstr) (files : list string) :
  (forall e o d er w', (cb e o d er w').2 = w') ->
  forall (kg : bool) (d : D) (e : err_ptr) (w : world),
    exists l : list (list cstr),
      (extcap_foreach_loop os (os_extcap_dir os) argc args cb ifname files
         kg d e w).2 = log_spawns l w
      /\ Forall (fun argv => exists f,
                   f ∈ files /\ argv = foreach_argv os argc args f
                   /\ (extcap_if_exists ifname w = true ->
                       extcap_if_exists_for_extcap ifname
                         (extcap_path (os_extcap_dir os) f) w = true)) l.
Proof.
  intros Hcb. induction files as [|file files IH]; intros kg d e w.
  - exists []. split; [by rewrite log_spawns_nil|constructor].
  - cbn [extcap_foreach_loop]. destruct kg.
    2:{ exists []. split; [by rewrite log_spawns_nil|constructor]. }
    destruct (extcap_if_exists ifname w
              && negb (extcap_if_exists_for_extcap ifname
                         (extcap_path (os_extcap_dir os) file) w)) eqn:Hskip.
    + destruct (IH true d e w) as (l & Hl & Hall).
      exists l. split; [done|].
      eapply Forall_impl; [exact Hall|].
      intros argv (f & ? & ? & ?). exists f. split; [by right|done].
    + assert (extcap_if_exists ifname w = true ->
              extcap_if_exists_for_extcap ifname
                (extcap_path (os_extcap_dir os) file) w = true) as Hown.
      { intros Hw. rewrite Hw in Hskip. simpl in Hskip.
        by apply negb_false_iff in Hskip. }
      destruct (os_spawn_sync os _) as [[status exit_status] output].
      fold (foreach_argv os argc args file).
      set (w1 := log_spawn (foreach_argv os argc args file) w).
      assert (exists (kg' : bool) (d' : D) (e' : err_ptr),
        (if status && (exit_status =? 0)%Z
         then let '(keep_going, cb_data, err_str, w0) :=
                cb (extcap_path (os_extcap_dir os) file) output d e w1 in
              extcap_foreach_loop os (os_extcap_dir os) argc args cb ifname
                files keep_going cb_data err_str w0
         else extcap_foreach_loop os (os_extcap_dir os) argc args cb ifname
                files true d e w1)
        = extcap_foreach_loop os (os_extcap_dir os) argc args cb ifname
            files kg' d' e' w1) as (kg' & d' & e' & ->).
      { destruct (status && (exit_status =? 0)%Z); [|by eauto].
        pose proof (Hcb (extcap_path (os_extcap_dir os) file) output d e w1)
          as Hc.
        destruct (cb _ _ _ _ _) as [[[kg' d'] e'] w']. simpl in Hc.
        subst w'. eauto. }
      destruct (IH kg' d' e' w1) as (l & Hl & Hall).
      exists (foreach_argv os argc args file :: l). split.
      * rewrite Hl. subst w1. by rewrite log_spawns_log_spawn.
      * constructor.
        -- exists file. split; [left|done].
        -- eapply Forall_impl; [exact Hall|].
           intros argv (f & ? & ? & Himp). exists f. split; [by right|].
           split; [done|]. intros Hw.
           rewrite <- (extcap_if_exists_for_extcap_frame ifname _ w1 w) by done.
           apply Himp. by rewrite (extcap_if_exists_frame ifname w1 w).
Qed.

(** X12: a capability query, on any name, changes nothing in the world
    but the spawn log: registry, files, process handles and counters are
    as before.  Every program it starts is the owner the registry records
    for the name, and is a file of the helper directory. *)
Theorem X12_queries_only_spawn_the_owner
    (os : os_t) (ifname : cstr) (err_str : err_ptr) (w : world) :
  exists ld lc : list (list cstr),
    (extcap_get_if_dlts os ifname err_str w).2 = log_spawns ld w
    /\ (extcap_get_if_configuration os ifname w).2 = log_spawns lc w
    /\ Forall (fun argv => exists n f,
                 ifname = Some n /\ f ∈ dir_entries os
                 /\ registered w n = Some (extcap_path (os_extcap_dir os) f)
                 /\ head argv = Some (Some (extcap_path (os_extcap_dir os) f)))
         (ld ++ lc).
Proof.
  assert (forall (D : Type) (cb : extcap_cb_t D) argc args (d : D) e,
    (forall e o d er w', (cb e o d er w').2 = w') ->
    extcap_if_exists ifname w = true ->
    exists l, (extcap_foreach os argc args cb d e ifname w).2 = log_spawns l w
      /\ Forall (fun argv => exists n f,
                   ifname = Some n /\ f ∈ dir_entries os
                   /\ registered w n = Some (extcap_path (os_extcap_dir os) f)
                   /\ head argv = Some (Some (extcap_path (os_extcap_dir os) f)))
           l) as Hforeach.
  { intros D cb argc args d e Hcb Hex. unfold extcap_foreach, dir_entries.
    destruct (os_dir os) as [files|]; simpl.
    2:{ exists []. split; [by rewrite log_spawns_nil|constructor]. }
    destruct (foreach_frame os argc args cb ifname files Hcb true d e w)
      as (l & Hl & Hall).
    exists l. split; [done|].
    eapply Forall_impl; [exact Hall|].
    intros argv (f & Hf & -> & Hown). specialize (Hown Hex).
    destruct ifname as [n|]; [|done].
    exists n, f. split; [done|]. split; [done|]. split; [|done].
    rewrite extcap_if_exists_for_extcap_registered in Hown.
    destruct (registered w n) as [o|]; [|done].
    by apply String.eqb_eq in Hown as ->. }
  unfold extcap_get_if_dlts, extcap_get_if_configuration.
  destruct (extcap_if_exists ifname w) eqn:Hex.
  - destruct (Hforeach _ dlt_cb 3%nat
      [Some EXTCAP_ARGUMENT_LIST_DLTS; Some EXTCAP_ARGUMENT_INTERFACE; ifname]
      (Some None)
      (clear_err match ifname with Some _ => clear_err err_str | None => err_str end)
      dlt_cb_world eq_refl) as (ld & Hld & Halld).
    destruct (Hforeach _ search_cb 4%nat
      [Some EXTCAP_ARGUMENT_CONFIG; Some EXTCAP_ARGUMENT_INTERFACE; ifname; None]
      [] None search_cb_world eq_refl) as (lc & Hlc & Hallc).
    exists ld, lc.
    destruct (extcap_foreach os 3 _ dlt_cb _ _ _ _) as [[? ?] wd].
    destruct (extcap_foreach os 4 _ search_cb _ _ _ _) as [[? ?] wc].
    simpl in *. split; [done|]. split; [done|]. by apply Forall_app.
  - exists [], []. simpl. rewrite log_spawns_nil. repeat split; constructor.
Qed.

End QueriesMore.

(** ** More on session start and teardown *)

Section SessionMore.

Context {P : extcap_parser}.

Lemma arg_cb_words (kv : gstr * gstr) (args : list gstr) :
  extcap_arg_cb kv.1 kv.2 args = args ++ arg_pair_words kv.
Proof.
  destruct kv as [[|k|] [|v|]]; simpl; rewrite <- ?app_assoc, ?app_nil_r; done.
Qed.

Lemma g_hash_table_foreach_arg_cb_words (t : list (gstr * gstr)) :
  forall args : list gstr,
    g_hash_table_foreach_arg_cb t args = args ++ concat (map arg_pair_words t).
Proof.
  unfold g_hash_table_foreach_arg_cb.
  induction t as [|kv t IH]; intros args; simpl.
  - by rewrite app_nil_r.
  - by rewrite IH, arg_cb_words, <- app_assoc.
Qed.

(** X13: the extra arguments of an entry are appended to the argv in the
    order the table is visited: key then value, the value left out when
    it is NULL, and nothing at all for a pair whose key is NULL.  What
    was in the argv stays in front, no NULL is appended (so the extra
    arguments never cut the argv short), and at most two words come from
    each pair. *)
Theorem X13_extra_arguments (t : list (gstr * gstr)) (args : list gstr) :
  g_hash_table_foreach_arg_cb t args = args ++ concat (map arg_pair_words t)
  /\ Forall (fun a => a <> g_null) (concat (map arg_pair_words t))
  /\ (length (g_hash_table_foreach_arg_cb t args)
      <= length args + 2 * length t)%nat.
Proof.
  rewrite g_hash_table_foreach_arg_cb_words. split; [done|].
  rewrite length_app.
  induction t as [|[k v] t [IH1 IH2]]; simpl.
  - split; [constructor|lia].
  - destruct k, v; simpl; (split; [by repeat constructor|lia]).
Qed.

(** [extcap_create_pipe] touches the files and the temporary-file counter
    only, and never unlinks a file that is not there. *)
Lemma extcap_create_pipe_frame (os : os_t) (fifo : cstr) (w : world) :
  ifaces (extcap_create_pipe os fifo w).2 = ifaces w
  /\ spawned (extcap_create_pipe os fifo w).2 = spawned w
  /\ closed_pids (extcap_create_pipe os fifo w).2 = closed_pids w
  /\ unlink_failures (extcap_create_pipe os fifo w).2 = unlink_failures w
  /\ tempfiles (extcap_create_pipe os fifo w).2 = S (tempfiles w).
Proof.
  unfold extcap_create_pipe, create_tempfile.
  destruct (os_create_tempfile os (tempfiles w)) as [fd [p|]];
    destruct (fd =? 0)%Z; try done.
  - unfold file_exists, ws_unlink, mkfifo. cbn [fs].
    destruct (0 <=? fd)%Z.
    + rewrite lookup_insert_eq. cbn [fs set_fs]. rewrite lookup_delete_eq.
      by destruct (os_mkfifo_ok os p).
    + destruct (fs w !! p) eqn:Hp; cbn [fs set_fs].
      * rewrite lookup_delete_eq. by destruct (os_mkfifo_ok os p).
      * rewrite Hp. by destruct (os_mkfifo_ok os p).
Qed.

Lemma extcap_create_pipe_ok
    (os : os_t) (fifo : cstr) (w : world) (fd : Z) (p : string) :
  os_create_tempfile os (tempfiles w) = (fd, Some p) ->
  fd <> 0%Z ->
  os_mkfifo_ok os p = true ->
  (extcap_create_pipe os fifo w).1 = (true, Some p)
  /\ fs (extcap_create_pipe os fifo w).2 !! p = Some Fifo
  /\ forall q : string, q <> p ->
       fs (extcap_create_pipe os fifo w).2 !! q = fs w !! q.
Proof.
  intros Htmp Hfd Hok. unfold extcap_create_pipe, create_tempfile.
  rewrite Htmp. apply Z.eqb_neq in Hfd. rewrite Hfd.
  unfold file_exists, ws_unlink, mkfifo. cbn [fs].
  destruct (0 <=? fd)%Z.
  - rewrite lookup_insert_eq. cbn [fs set_fs].
    rewrite lookup_delete_eq, Hok. cbn.
    split; [done|]. split; [by rewrite lookup_insert_eq|].
    intros q Hq. by rewrite lookup_insert_ne, lookup_delete_ne, lookup_insert_ne.
  - destruct (fs w !! p) eqn:Hp; cbn [fs set_fs].
    + rewrite lookup_delete_eq, Hok. cbn.
      split; [done|]. split; [by rewrite lookup_insert_eq|].
      intros q Hq. by rewrite lookup_insert_ne, lookup_delete_ne.
    + rewrite Hp, Hok. cbn.
      split; [done|]. split; [by rewrite lookup_insert_eq|].
      intros q Hq. by rewrite lookup_insert_ne.
Qed.

(** X14: the good path of [extcap_create_pipe].  When [create_tempfile]
    returns a nonzero descriptor and a name, and [mkfifo] can create that
    name, the call returns TRUE with [*fifo] set to the name, and the name
    is a FIFO afterwards, whatever was there before (the temporary file
    just created, or a stale file); no other file is touched. *)
Theorem X14_create_pipe_success
    (os : os_t) (fifo : cstr) (w : world) (fd : Z) (p : string) :
  os_create_tempfile os (tempfiles w) = (fd, Some p) ->
  fd <> 0%Z ->
  os_mkfifo_ok os p = true ->
  (extcap_create_pipe os fifo w).1 = (true, Some p)
  /\ fs (extcap_create_pipe os fifo w).2 !! p = Some Fifo
  /\ forall q : string, q <> p ->
       fs (extcap_create_pipe os fifo w).2 !! q = fs w !! q.
Proof.
  apply extcap_create_pipe_ok.
Qed.

Lemma extcap_create_pipe_false_fd (os : os_t) (fifo : cstr) (w : world) :
  (extcap_create_pipe os fifo w).1.1 = false
  <-> (os_create_tempfile os (tempfiles w)).1 = 0%Z.
Proof.
  unfold extcap_create_pipe, create_tempfile.
  destruct (os_create_tempfile os (tempfiles w)) as [fd name].
  destruct (Z.eqb_spec fd 0) as [->|Hne]; cbn [fst snd]; [done|].
  destruct (mkfifo os name _) as [r w']. cbn [fst snd].
  split; [done|by intros ?].
Qed.

(** X15: [extcap_create_pipe] answers FALSE exactly when
    [create_tempfile] returned the descriptor 0, and then leaves [*fifo]
    as it was.  In every case it asks for one temporary file, and leaves
    the registry, the spawn log and the process handles alone. *)
Theorem X15_create_pipe_FALSE (os : os_t) (fifo : cstr) (w : world) :
  ((extcap_create_pipe os fifo w).1.1 = false
   <-> (os_create_tempfile os (tempfiles w)).1 = 0%Z)
  /\ ((extcap_create_pipe os fifo w).1.1 = false ->
      (extcap_create_pipe os fifo w).1.2 = fifo)
  /\ tempfiles (extcap_create_pipe os fifo w).2 = S (tempfiles w)
  /\ ifaces (extcap_create_pipe os fifo w).2 = ifaces w
  /\ spawned (extcap_create_pipe os fifo w).2 = spawned w
  /\ closed_pids (extcap_create_pipe os fifo w).2 = closed_pids w.
Proof.
  destruct (extcap_create_pipe_frame os fifo w) as (? & ? & ? & _ & ?).
  split; [|split; [|done]].
  - apply extcap_create_pipe_false_fd.
  - unfold extcap_create_pipe, create_tempfile.
    destruct (os_create_tempfile os (tempfiles w)) as [fd name].
    destruct (fd =? 0)%Z; [done|].
    destruct (mkfifo os name _) as [r w']. done.
Qed.

(** The loop of [extcaps_init_initerfaces] visits the entries from left
    to right, and each iteration is [init_entry]. *)
Lemma extcaps_init_loop_entries (os : os_t) (suf : list interface_options) :
  forall (pre : list interface_options) (w : world),
    extcaps_init_loop os (length suf) (length pre)
      (mk_capture_options (pre ++ suf)) w
    = (fun r => (r.1.1, mk_capture_options (pre ++ r.1.2), r.2))
        <$> init_entries os suf w.
Proof.
  induction suf as [|o suf IH]; intros pre w; [done|].
  cbn [length extcaps_init_loop init_entries opts_ifaces].
  rewrite list_lookup_middle by done.
  unfold init_entry.
  destruct (decide (if_type o ≠ IF_EXTCAP)).
  - specialize (IH (pre ++ [o]) w).
    rewrite length_app, Nat.add_1_r, <- app_assoc in IH. simpl in IH.
    rewrite IH. destruct (init_entries os suf w) as [[[ok l'] w']|]; [|done].
    simpl. by rewrite <- app_assoc.
  - destruct (extcap_create_pipe os (extcap_fifo o) w) as [[ok fifo] w1].
    destruct ok; [|done]. cbn [negb].
    unfold run_capture_argv, run_capture_args. cbn [g_strdup].
    destruct (read_argv _) as [argv|]; [|done].
    rewrite insert_app_r_alt, Nat.sub_diag by done. cbn [insert list_insert].
    match goal with
    | |- extcaps_init_loop _ _ _ (mk_capture_options (pre ++ ?o' :: suf)) ?w2 = _ =>
        specialize (IH (pre ++ [o']) w2)
    end.
    rewrite length_app, Nat.add_1_r, <- app_assoc in IH. simpl in IH.
    rewrite IH.
    destruct (init_entries os suf _) as [[[ok l'] w']|]; [|done].
    simpl. by rewrite <- app_assoc.
Qed.

Lemma extcaps_init_initerfaces_entries (os : os_t)
    (capture_opts : capture_options) (w : world) :
  extcaps_init_initerfaces os capture_opts w
  = (fun r => (r.1.1, mk_capture_options r.1.2, r.2))
      <$> init_entries os (opts_ifaces capture_opts) w.
Proof.
  unfold extcaps_init_initerfaces. destruct capture_opts as [l]. simpl.
  apply (extcaps_init_loop_entries os l []).
Qed.

(** The call has a result exactly when the fold has, and the two
    agree. *)
Lemma extcaps_init_initerfaces_Some (os : os_t)
    (capture_opts : capture_options) (w : world)
    (r : bool * capture_options * world) :
  extcaps_init_initerfaces os capture_opts w = Some r ->
  init_entries os (opts_ifaces capture_opts) w
  = Some (r.1.1, opts_ifaces r.1.2, r.2).
Proof.
  rewrite extcaps_init_initerfaces_entries.
  destruct (init_entries os (opts_ifaces capture_opts) w)
    as [[[ok l'] w']|]; [|done].
  simpl. by intros [= <-].
Qed.

Lemma init_entry_native (os : os_t) (o : interface_options) (w : world) :
  if_type o <> IF_EXTCAP -> init_entry os o w = Some (true, o, w).
Proof. intros Ht. unfold init_entry. by destruct (decide _). Qed.

(** The three ways an iteration can end with a result: a native entry is
    passed over; [extcap_create_pipe] answered FALSE; or the helper was
    started, and the strings of the entry's table were freed. *)
Lemma init_entry_inv (os : os_t) (o o' : interface_options) (w w' : world)
    (ok : bool) :
  init_entry os o w = Some (ok, o', w') ->
  (name o' = name o /\ if_type o' = if_type o /\ extcap o' = extcap o
   /\ ifaces w' = ifaces w /\ closed_pids w' = closed_pids w
   /\ unlink_failures w' = unlink_failures w)
  /\ ((if_type o <> IF_EXTCAP /\ ok = true /\ o' = o /\ w' = w)
      \/ (if_type o = IF_EXTCAP /\ ok = false /\ o' = o
          /\ spawned w' = spawned w
          /\ (os_create_tempfile os (tempfiles w)).1 = 0%Z)
      \/ (if_type o = IF_EXTCAP /\ ok = true
          /\ exists argv : list cstr,
               run_capture_argv o (extcap_fifo o') = Some argv
               /\ spawned w' = spawned w ++ [argv]
               /\ extcap_pid o'
                  = default 0%Z (os_spawn_async os argv)
               /\ extcap_args o' = free_args <$> extcap_args o
               /\ tempfiles w' = S (tempfiles w))).
Proof.
  unfold init_entry.
  destruct (decide (if_type o ≠ IF_EXTCAP)) as [Hne|He].
  { intros [= <- <- <-]. split; [done|]. by left. }
  assert (if_type o = IF_EXTCAP) as Ht
    by (destruct (if_type o); [by destruct He|done]).
  destruct (extcap_create_pipe_frame os (extcap_fifo o) w)
    as (Hi & Hs & Hc & Hu & Htmp).
  pose proof (extcap_create_pipe_false_fd os (extcap_fifo o) w) as Hfd.
  destruct (extcap_create_pipe os (extcap_fifo o) w) as [[ok1 fifo] w1].
  cbn [fst snd] in *. destruct ok1; cbn [negb].
  - destruct (run_capture_argv o fifo) as [argv|] eqn:Hargv; [|done].
    intros [= <- <- <-]. cbn. split; [done|]. right. right.
    split; [done|]. split; [done|]. exists argv. by rewrite Hs.
  - intros [= <- <- <-]. split; [done|]. right. left.
    split; [done|]. split; [done|]. split; [done|]. split; [done|].
    by apply Hfd.
Qed.



Lemma init_entries_true (os : os_t) (l : list interface_options) :
  forall (w w' : world) (l' : list interface_options),
    init_entries os l w = Some (true, l', w') ->
    exists argvs : list (list cstr),
      Forall2 (fun p argv =>
                 run_capture_argv p.1 (extcap_fifo p.2) = Some argv
                 /\ extcap_pid p.2 = default 0%Z (os_spawn_async os argv)
                 /\ extcap_args p.2 = free_args <$> extcap_args p.1)
        (filter (fun p => if_type p.1 = IF_EXTCAP) (zip l l')) argvs
      /\ spawned w' = spawned w ++ argvs
      /\ tempfiles w'
         = (tempfiles w
            + length (filter (fun o => if_type o = IF_EXTCAP) l))%nat.
Proof.
  induction l as [|o l IH]; intros w w' l'; cbn [init_entries].
  - intros [= <- <-]. exists []. simpl. rewrite app_nil_r.
    split; [constructor|]. split; [done|lia].
  - destruct (init_entry os o w) as [[[ok o'] w1]|] eqn:Hentry; [|done].
    destruct (init_entry_inv _ _ _ _ _ _ Hentry) as (_ & Hcases).
    destruct ok; [|done].
    destruct (init_entries os l w1) as [[[ok2 l2] w2]|] eqn:Hrest; [|done].
    intros [= -> <- <-].
    destruct (IH _ _ _ Hrest) as (argvs & Hall & Hs & Htmp).
    destruct Hcases as [(Hne & _ & -> & ->)|[(_ & [=] & _)|(Hext & _ & argv & Hargv & Hs1 & Hp & Ha & Htmp1)]].
    + exists argvs. cbn [zip zip_with].
      rewrite !filter_cons_False by done. done.
    + exists (argv :: argvs). cbn [zip zip_with].
      rewrite !filter_cons_True by done.
      split; [by constructor|].
      split; [by rewrite Hs, Hs1, <- app_assoc|].
      rewrite Htmp, Htmp1. simpl. lia.
Qed.

(** X17: when [extcaps_init_initerfaces] answers TRUE, it has started one
    process for each helper-backed entry, in the order of the array.  The
    argv of each is the one built from the entry as it was before the
    call and the channel path now stored in it (helper path, run flag,
    interface flag and name, pipe flag and channel path, extra arguments,
    NULL); the pid stored in the entry is the one the spawn returned, or
    0 when the spawn failed; the strings of the entry's table that went
    into the argv are freed in the stored entry; and one temporary file
    was asked for per helper-backed entry. *)
Theorem X17_init_TRUE
    (os : os_t) (capture_opts : capture_options) (w : world)
    (r : bool * capture_options * world) :
  extcaps_init_initerfaces os capture_opts w = Some r ->
  r.1.1 = true ->
  exists argvs : list (list cstr),
    Forall2 (fun p argv =>
               run_capture_argv p.1 (extcap_fifo p.2) = Some argv
               /\ extcap_pid p.2 = default 0%Z (os_spawn_async os argv)
               /\ extcap_args p.2 = free_args <$> extcap_args p.1)
      (filter (fun p => if_type p.1 = IF_EXTCAP)
         (zip (opts_ifaces capture_opts) (opts_ifaces r.1.2)))
      argvs
    /\ spawned r.2 = spawned w ++ argvs
    /\ tempfiles r.2
       = (tempfiles w
          + length (filter (fun o => if_type o = IF_EXTCAP)
                      (opts_ifaces capture_opts)))%nat.
Proof.
  intros Hr Hok. apply extcaps_init_initerfaces_Some in Hr.
  rewrite Hok in Hr. by apply init_entries_true.
Qed.

Lemma init_entries_false (os : os_t) (l : list interface_options) :
  forall (w w' : world) (l' : list interface_options),
    init_entries os l w = Some (false, l', w') ->
    exists (pre pre' : list interface_options) (o : interface_options)
           (suf : list interface_options) (argvs : list (list cstr)),
      l = pre ++ o :: suf
      /\ l' = pre' ++ o :: suf
      /\ length pre' = length pre
      /\ if_type o = IF_EXTCAP
      /\ (os_create_tempfile os
            (tempfiles w
             + length (filter (fun o => if_type o = IF_EXTCAP) pre))%nat).1
         = 0%Z
      /\ Forall2 (fun p argv =>
                    run_capture_argv p.1 (extcap_fifo p.2) = Some argv)
           (filter (fun p => if_type p.1 = IF_EXTCAP) (zip pre pre')) argvs
      /\ spawned w' = spawned w ++ argvs.
Proof.
  induction l as [|o l IH]; intros w w' l'; cbn [init_entries]; [done|].
  destruct (init_entry os o w) as [[[ok o'] w1]|] eqn:Hentry; [|done].
  destruct (init_entry_inv _ _ _ _ _ _ Hentry) as (_ & Hcases).
  destruct ok.
  - destruct (init_entries os l w1) as [[[ok2 l2] w2]|] eqn:Hrest; [|done].
    intros [= -> <- <-].
    destruct (IH _ _ _ Hrest)
      as (pre & pre' & o2 & suf & argvs & -> & -> & Hlen & Ht2 & Hfd & Hall & Hs).
    destruct Hcases as [(Hne & _ & -> & ->)|[(_ & [=] & _)|(Hext & _ & argv & Hargv & Hs1 & _ & _ & Htmp1)]].
    + exists (o :: pre), (o :: pre'), o2, suf, argvs. cbn [zip zip_with].
      rewrite !filter_cons_False by done.
      split; [done|]. split; [done|]. split; [simpl; lia|]. done.
    + exists (o :: pre), (o' :: pre'), o2, suf, (argv :: argvs).
      cbn [zip zip_with]. rewrite !filter_cons_True by done.
      split; [done|]. split; [done|]. split; [simpl; lia|]. split; [done|].
      split; [|split; [by constructor|by rewrite Hs, Hs1, <- app_assoc]].
      rewrite Htmp1 in Hfd. simpl. by rewrite Nat.add_succ_r.
  - intros [= <- <-].
    destruct Hcases as [(_ & [=] & _)|[(He & _ & -> & Hs & Hfd)|(_ & [=] & _)]].
    exists [], [], o, l, []. simpl. rewrite Nat.add_0_r, app_nil_r.
    repeat split; first [done|constructor].
Qed.

(** X18: when [extcaps_init_initerfaces] answers FALSE, it stopped at a
    helper-backed entry for which [create_tempfile] returned the
    descriptor 0.  That entry and all the entries after it are in the
    array as they were, and no process was started for them; the entries
    before it were handled as usual: one process for each helper-backed
    one, with the argv built from the entry as it was before the call and
    the channel path now stored in it. *)
Theorem X18_init_FALSE
    (os : os_t) (capture_opts : capture_options) (w : world)
    (r : bool * capture_options * world) :
  extcaps_init_initerfaces os capture_opts w = Some r ->
  r.1.1 = false ->
  exists (pre pre' : list interface_options) (o : interface_options)
         (suf : list interface_options) (argvs : list (list cstr)),
    opts_ifaces capture_opts = pre ++ o :: suf
    /\ opts_ifaces r.1.2 = pre' ++ o :: suf
    /\ length pre' = length pre
    /\ if_type o = IF_EXTCAP
    /\ (os_create_tempfile os
          (tempfiles w
           + length (filter (fun o => if_type o = IF_EXTCAP) pre))%nat).1
       = 0%Z
    /\ Forall2 (fun p argv =>
                  run_capture_argv p.1 (extcap_fifo p.2) = Some argv)
         (filter (fun p => if_type p.1 = IF_EXTCAP) (zip pre pre')) argvs
    /\ spawned r.2 = spawned w ++ argvs.
Proof.
  intros Hr Hok. apply extcaps_init_initerfaces_Some in Hr.
  rewrite Hok in Hr. by apply init_entries_false.
Qed.

Lemma cleanup_step_closed_pids (w : world) (o : interface_options) :
  closed_pids (cleanup_step w o)
  = closed_pids w
    ++ (if decide (if_type o = IF_EXTCAP) then
          if decide (extcap_pid o ≠ GPid_invalid) then [extcap_pid o] else []
        else [])
  /\ ifaces (cleanup_step w o) = ifaces w
  /\ spawned (cleanup_step w o) = spawned w
  /\ tempfiles (cleanup_step w o) = tempfiles w.
Proof.
  unfold cleanup_step, extcap_cleanup_entry.
  destruct (decide (if_type o ≠ IF_EXTCAP)) as [Hne|He].
  - rewrite decide_False by done. by rewrite app_nil_r.
  - rewrite decide_True by (destruct (if_type o); [by destruct He|done]).
    destruct (extcap_fifo o) as [p|] eqn:Hp.
    + unfold file_exists, ws_unlink.
      destruct (fs w !! p) eqn:Hfs; cbn [fst snd extcap_pid];
        destruct (decide (extcap_pid o ≠ GPid_invalid));
        cbn; rewrite ?app_nil_r; done.
    + destruct (decide (extcap_pid o ≠ GPid_invalid));
        cbn; rewrite ?app_nil_r; done.
Qed.

Lemma valid_pids_cons (o : interface_options) (l : list interface_options) :
  valid_pids (o :: l)
  = (if decide (if_type o = IF_EXTCAP) then
       if decide (extcap_pid o ≠ GPid_invalid) then [extcap_pid o] else []
     else [])
    ++ valid_pids l.
Proof.
  unfold valid_pids. rewrite filter_cons.
  destruct (decide (if_type o = IF_EXTCAP)); [|done].
  cbn [map]. rewrite filter_cons.
  by destruct (decide (extcap_pid o ≠ GPid_invalid)).
Qed.

Lemma cleanup_fold_closed_pids (l : list interface_options) :
  forall w : world,
    closed_pids (foldl cleanup_step w l) = closed_pids w ++ valid_pids l
    /\ ifaces (foldl cleanup_step w l) = ifaces w
    /\ spawned (foldl cleanup_step w l) = spawned w
    /\ tempfiles (foldl cleanup_step w l) = tempfiles w.
Proof.
  induction l as [|o l IH]; intros w; cbn [foldl].
  - unfold valid_pids. simpl. by rewrite app_nil_r.
  - destruct (IH (cleanup_step w o)) as (IH1 & IH2 & IH3 & IH4).
    destruct (cleanup_step_closed_pids w o) as (H1 & H2 & H3 & H4).
    rewrite IH1, IH2, IH3, IH4, H1, H2, H3, H4, valid_pids_cons.
    by rewrite <- app_assoc.
Qed.

(** X19: [extcap_cleanup] calls [g_spawn_close_pid] once for every
    helper-backed entry whose pid is not [(GPid)-1], in the order of the
    array, and for nothing else: native entries and entries marked as not
    running are passed over.  It starts no process and leaves the
    registry alone. *)
Theorem X19_cleanup_releases_valid_pids
    (capture_opts : capture_options) (w : world) :
  closed_pids (extcap_cleanup capture_opts w).2
  = closed_pids w ++ valid_pids (opts_ifaces capture_opts)
  /\ ifaces (extcap_cleanup capture_opts w).2 = ifaces w
  /\ spawned (extcap_cleanup capture_opts w).2 = spawned w
  /\ tempfiles (extcap_cleanup capture_opts w).2 = tempfiles w.
Proof.
  rewrite extcap_cleanup_fold. cbn [snd]. apply cleanup_fold_closed_pids.
Qed.

Lemma cleanup_fold_others (l : list interface_options) :
  forall (w : world) (q : string),
    ~ session_fifo l q ->
    fs (foldl cleanup_step w l) !! q = fs w !! q.
Proof.
  unfold session_fifo.
  induction l as [|o l IH]; intros w q Hq; cbn [foldl]; [done|].
  rewrite IH by (intros H; apply Hq; by right).
  rewrite cleanup_step_fs.
  destruct (decide (if_type o ≠ IF_EXTCAP)) as [|He]; [done|].
  destruct (extcap_fifo o) as [p|] eqn:Hp; [|done].
  apply lookup_delete_ne. intros ->. apply Hq. left.
  split; [|done]. destruct (if_type o); [by destruct He|done].
Qed.

(** X20: the files [extcap_cleanup] removes are exactly the channel
    paths of the helper-backed entries: such a path is not on disk
    afterwards, and every other path is on disk, or not, as before. *)
Theorem X20_cleanup_removes_only_session_fifos
    (capture_opts : capture_options) (w : world) (q : string) :
  (session_fifo (opts_ifaces capture_opts) q ->
   fs (extcap_cleanup capture_opts w).2 !! q = None)
  /\ (~ session_fifo (opts_ifaces capture_opts) q ->
      fs (extcap_cleanup capture_opts w).2 !! q = fs w !! q).
Proof.
  rewrite extcap_cleanup_fold. cbn [snd]. split.
  - unfold session_fifo. intros (o & Ho & Ht & Hp)%Exists_exists.
    by eapply cleanup_fold_removes.
  - apply cleanup_fold_others.
Qed.

Lemma arg_pair_words_readable (kv : gstr * gstr) :
  kv.1 <> g_freed -> kv.2 <> g_freed ->
  Forall (is_Some ∘ read_gstr) (arg_pair_words kv).
Proof.
  destruct kv as [[|k|] [|v|]]; simpl; intros Hk Hv; try congruence;
    repeat (constructor; [by eexists|]); constructor.
Qed.

(** With no freed string in its table, the argv of an entry can be read. *)
Lemma run_capture_argv_live (o : interface_options) (fifo : cstr) :
  args_live o -> is_Some (run_capture_argv o fifo).
Proof.
  intros Hlive. unfold run_capture_argv, read_argv, run_capture_args.
  apply mapM_is_Some_2. apply Forall_app.
  split; [|by constructor; [eexists|constructor]].
  assert (Forall (is_Some ∘ read_gstr)
            [g_live (extcap o); g_live EXTCAP_ARGUMENT_RUN_CAPTURE;
             g_live EXTCAP_ARGUMENT_INTERFACE; g_live (name o);
             g_live EXTCAP_ARGUMENT_RUN_PIPE; g_strdup fifo]) as Hbase.
  { destruct fifo; simpl; repeat (constructor; [by eexists|]); constructor. }
  destruct (extcap_args o) as [t|] eqn:Ht; [|done].
  rewrite g_hash_table_foreach_arg_cb_words. apply Forall_app. split; [done|].
  specialize (Hlive t Ht). clear Ht.
  induction Hlive as [|kv t [Hk Hv] _ IH]; simpl; [constructor|].
  apply Forall_app. split; [by apply arg_pair_words_readable|done].
Qed.

(** An iteration when nothing fails: the entry gets a channel that is a
    FIFO, and no FIFO that was there is lost. *)
Lemma init_entry_all_ok (os : os_t) (o : interface_options) (w : world) :
  (forall k, (os_create_tempfile os k).1 <> 0%Z) ->
  (forall k, (os_create_tempfile os k).2 <> None) ->
  (forall p, os_mkfifo_ok os p = true) ->
  args_live o ->
  exists (o' : interface_options) (w' : world),
    init_entry os o w = Some (true, o', w')
    /\ if_type o' = if_type o
    /\ (if_type o = IF_EXTCAP ->
        exists p, extcap_fifo o' = Some p /\ fs w' !! p = Some Fifo)
    /\ (forall q, fs w !! q = Some Fifo -> fs w' !! q = Some Fifo)
    /\ closed_pids w' = closed_pids w.
Proof.
  intros Hfd Hname Hmk Hlive. unfold init_entry.
  destruct (decide (if_type o ≠ IF_EXTCAP)) as [Hne|He].
  { exists o, w. by repeat split. }
  specialize (Hfd (tempfiles w)). specialize (Hname (tempfiles w)).
  destruct (os_create_tempfile os (tempfiles w)) as [fd [p|]] eqn:Htmp;
    [|done]. cbn [fst snd] in *.
  destruct (extcap_create_pipe_ok os (extcap_fifo o) w fd p Htmp Hfd (Hmk p))
    as (Hr & Hp & Hq).
  destruct (extcap_create_pipe_frame os (extcap_fifo o) w)
    as (_ & _ & Hc & _).
  destruct (extcap_create_pipe os (extcap_fifo o) w) as [[ok fifo] w1].
  injection Hr as -> ->. cbn [negb fst snd] in *.
  destruct (run_capture_argv_live o (Some p) Hlive) as [argv ->].
  eexists _, _. split; [done|]. cbn.
  split; [done|]. split; [eauto|]. split; [|done].
  intros q Hfifo. destruct (decide (q = p)) as [->|Hqp]; [done|].
  by rewrite Hq.
Qed.

Lemma init_entries_all_ok (os : os_t) (l : list interface_options) :
  (forall k, (os_create_tempfile os k).1 <> 0%Z) ->
  (forall k, (os_create_tempfile os k).2 <> None) ->
  (forall p, os_mkfifo_ok os p = true) ->
  Forall args_live l ->
  forall w : world,
    exists (l' : list interface_options) (w' : world),
      init_entries os l w = Some (true, l', w')
      /\ Forall (fun o' =>
                   if_type o' = IF_EXTCAP ->
                   exists p, extcap_fifo o' = Some p
                             /\ fs w' !! p = Some Fifo) l'
      /\ (forall q, fs w !! q = Some Fifo -> fs w' !! q = Some Fifo)
      /\ closed_pids w' = closed_pids w.
Proof.
  intros Hfd Hname Hmk Hlive.
  induction Hlive as [|o l Ho _ IH]; intros w; cbn [init_entries].
  - exists [], w. split; [done|]. split; [constructor|done].
  - destruct (init_entry_all_ok os o w Hfd Hname Hmk Ho)
      as (o' & w1 & -> & Ht & Hfifo & Hkeep & Hc1).
    destruct (IH w1) as (l' & w2 & -> & Hall & Hkeep2 & Hc2).
    exists (o' :: l'), w2. split; [done|].
    split; [|split; [by auto|congruence]].
    constructor; [|done].
    intros He. rewrite Ht in He. destruct (Hfifo He) as (p & Hp & Hfs).
    exists p. split; [done|]. by apply Hkeep2.
Qed.

(** X21: start, then teardown.  When [create_tempfile] always returns a
    nonzero descriptor with a name, [mkfifo] never fails and no string of
    the session's tables of extra arguments has been freed,
    [extcaps_init_initerfaces] answers TRUE and every helper-backed entry
    of the session is stored with a channel path that is a FIFO on disk;
    a following [extcap_cleanup] of that session leaves none of these
    paths on disk and releases every pid the session holds. *)
Theorem X21_init_then_cleanup
    (os : os_t) (capture_opts : capture_options) (w : world) :
  (forall k, (os_create_tempfile os k).1 <> 0%Z) ->
  (forall k, (os_create_tempfile os k).2 <> None) ->
  (forall p, os_mkfifo_ok os p = true) ->
  Forall args_live (opts_ifaces capture_opts) ->
  exists started : bool * capture_options * world,
    extcaps_init_initerfaces os capture_opts w = Some started
    /\ let stopped := extcap_cleanup started.1.2 started.2 in
       started.1.1 = true
       /\ Forall (fun o' =>
                    if_type o' = IF_EXTCAP ->
                    exists p, extcap_fifo o' = Some p
                              /\ fs started.2 !! p = Some Fifo
                              /\ fs stopped.2 !! p = None)
            (opts_ifaces started.1.2)
       /\ closed_pids stopped.2
          = closed_pids w ++ valid_pids (opts_ifaces started.1.2).
Proof.
  intros Hfd Hname Hmk Hlive.
  destruct (init_entries_all_ok os (opts_ifaces capture_opts)
              Hfd Hname Hmk Hlive w) as (l' & w' & Hinit & Hall & _ & Hc).
  exists (true, mk_capture_options l', w'). split.
  { rewrite extcaps_init_initerfaces_entries. by rewrite Hinit. }
  cbv zeta. cbn [fst snd opts_ifaces]. split; [done|].
  rewrite extcap_cleanup_fold. cbn [fst snd opts_ifaces]. split.
  - apply Forall_forall. intros o' Ho' He.
    rewrite Forall_forall in Hall. destruct (Hall o' Ho' He) as (p & Hp & Hfs).
    exists p. split; [done|]. split; [done|].
    by eapply cleanup_fold_removes.
  - destruct (cleanup_fold_closed_pids l' w') as (-> & _). by rewrite Hc.
Qed.

End SessionMore.

(** ** The further properties on concrete runs *)

Lemma X1_witness :
  extcap_if_executable (Some "eth-ext") world_AB = Some "/x/A"
  /\ extcap_if_exists_for_extcap (Some "eth-ext") "/x/A" world_AB = true.
Proof.
  assert (extcap_if_executable (Some "eth-ext") world_AB = Some "/x/A") as H
    by (vm_compute; reflexivity).
  split; [exact H|].
  destruct (X1_registry_lookups_agree (Some "eth-ext") world_AB) as (_ & Hfor & _).
  apply Hfor. exact H.
Defined.

Lemma X2_witness :
  extcap_if_executable (Some "eth-ext")
    (extcap_if_add "eth-ext" "/x/A" (extcap_if_cleanup world0))
  = Some "/x/A".
Proof.
  destruct (X2_add_then_lookup "eth-ext" "/x/A" (extcap_if_cleanup world0))
    as (_ & H & _).
  - simpl. discriminate.
  - vm_compute. reflexivity.
  - exact H.
Defined.

Lemma X3_witness :
  registered (extcap_if_add "eth-ext" "/x/B" world_AB) "ble-ext"
  = registered world_AB "ble-ext".
Proof.
  destruct (X3_add_is_local "eth-ext" "/x/B" "/x/B" world_AB) as (H & _).
  apply H. discriminate.
Defined.

Lemma X6_witness :
  let r := @extcap_interface_list demo_parser
             (demo_os (Some ["A"; "B"; "C"; "D"]) []) None world0 in
  registered r.2 "ble-ext" = Some "/x/B"
  /\ exists rec : if_info_t,
       rec ∈ r.1.1 /\ info_name rec = "ble-ext" /\ info_extcap rec = "/x/B".
Proof.
  cbv zeta.
  assert (registered
            (@extcap_interface_list demo_parser
               (demo_os (Some ["A"; "B"; "C"; "D"]) []) None world0).2
            "ble-ext" = Some "/x/B") as H by (vm_compute; reflexivity).
  split; [exact H|].
  destruct (@X6_discovery_list_agrees_with_registry demo_parser
              (demo_os (Some ["A"; "B"; "C"; "D"]) []) None world0)
    as (_ & _ & Hrec).
  apply Hrec. exact H.
Defined.

Lemma X7_witness :
  (@extcap_interface_list demo_parser os_disjoint None world0).1.1
  = @advert_records demo_parser os_disjoint.
Proof.
  apply (@X7_discovery_of_disjoint_names demo_parser os_disjoint None world0).
  apply (bool_decide_unpack _). vm_compute. reflexivity.
Defined.

Lemma X8_witness :
  let os := demo_os (Some ["C"; "D"; "A"; "B"]) [] in
  @extcap_foreach nat os 1 [Some "--extcap-interfaces"] stop_cb 0%nat None None
    world0
  = (1%nat, None,
     log_spawns
       (map (foreach_argv os 1 [Some "--extcap-interfaces"]) (["C"; "D"] ++ ["A"]))
       world0).
Proof.
  cbv zeta.
  apply (@X8_foreach_stops_on_FALSE nat
           (demo_os (Some ["C"; "D"; "A"; "B"]) []) 1
           [Some "--extcap-interfaces"] stop_cb ["C"; "D"] ["B"] "A"
           "eth-ext usb-ext" 0%nat None world0).
  - reflexivity.
  - repeat constructor; vm_compute; reflexivity.
  - vm_compute. reflexivity.
  - reflexivity.
Defined.

Lemma X9_witness :
  (@extcap_get_if_dlts demo_parser (demo_os (Some ["A"; "B"; "C"; "D"]) [])
     (Some "ble-ext") (Some (Some "stale")) world_AB).1
  = (Some (mk_if_capabilities false [mk_data_link_info 6 "EN10MB" "EN10MB"]),
     Some None).
Proof.
  apply (@X9_get_if_dlts_success demo_parser
           (demo_os (Some ["A"; "B"; "C"; "D"]) []) "ble-ext" "B"
           (Some (Some "stale")) world_AB "EN10MB").
  - apply (bool_decide_unpack _). vm_compute. reflexivity.
  - apply (bool_decide_unpack _). vm_compute. reflexivity.
  - vm_compute. reflexivity.
  - vm_compute. reflexivity.
  - vm_compute. discriminate.
Defined.

Lemma X10_witness :
  (@extcap_get_if_configuration demo_parser
     (demo_os (Some ["A"; "B"; "C"; "D"]) []) (Some "ble-ext") world_AB).1
  = [["EN10MB"]].
Proof.
  apply (@X10_get_if_configuration_success demo_parser
           (demo_os (Some ["A"; "B"; "C"; "D"]) []) "ble-ext" "B"
           world_AB "EN10MB").
  - apply (bool_decide_unpack _). vm_compute. reflexivity.
  - apply (bool_decide_unpack _). vm_compute. reflexivity.
  - vm_compute. reflexivity.
  - vm_compute. reflexivity.
Defined.

(** A registry in which "c0" belongs to helper [C], which exits with
    status 1 whatever it is asked. *)
Lemma X11_witness :
  let os := demo_os (Some ["A"; "B"; "C"; "D"]) [] in
  let w := extcap_if_add "c0" "/x/C" (extcap_if_cleanup world0) in
  (@extcap_get_if_dlts demo_parser os (Some "c0") (Some (Some "stale")) w).1
  = (None, Some None)
  /\ (@extcap_get_if_configuration demo_parser os (Some "c0") w).1 = [].
Proof.
  cbv zeta.
  destruct (@X11_queries_when_owner_cannot_run demo_parser
              (demo_os (Some ["A"; "B"; "C"; "D"]) []) "c0" "C"
              (Some (Some "stale"))
              (extcap_if_add "c0" "/x/C" (extcap_if_cleanup world0)))
    as (Hd & Hc).
  - apply (bool_decide_unpack _). vm_compute. reflexivity.
  - apply (bool_decide_unpack _). vm_compute. reflexivity.
  - vm_compute. reflexivity.
  - split.
    + apply Hd. vm_compute. reflexivity.
    + apply Hc. vm_compute. reflexivity.
Defined.

Lemma X14_witness :
  (extcap_create_pipe (demo_os None []) None world0).1
  = (true, Some "/tmp/wireshark_extcap")
  /\ fs (extcap_create_pipe (demo_os None []) None world0).2
       !! "/tmp/wireshark_extcap" = Some Fifo.
Proof.
  destruct (X14_create_pipe_success (demo_os None []) None world0
              3%Z "/tmp/wireshark_extcap") as (H1 & H2 & _).
  - reflexivity.
  - discriminate.
  - vm_compute. reflexivity.
  - split; [exact H1|exact H2].
Defined.

Lemma X15_witness :
  (extcap_create_pipe os_second_tempfile_fails (Some "old") world_running).1
  = (false, Some "old").
Proof.
  destruct (X15_create_pipe_FALSE os_second_tempfile_fails
              (Some "old") world_running) as (Hiff & Hfifo & _).
  assert ((extcap_create_pipe os_second_tempfile_fails (Some "old")
             world_running).1.1 = false) as H.
  { apply Hiff. reflexivity. }
  apply injective_projections; [exact H|exact (Hfifo H)].
Defined.

Lemma X17_witness :
  exists r,
    @extcaps_init_initerfaces demo_parser (demo_os None [])
      (mk_capture_options [en0_configured; eth_configured; ble_configured])
      world0 = Some r
    /\ r.1.1 = true
    /\ tempfiles r.2 = 2%nat.
Proof.
  destruct (@extcaps_init_initerfaces demo_parser (demo_os None [])
              (mk_capture_options [en0_configured; eth_configured; ble_configured])
              world0) as [r|] eqn:Hr; [|vm_compute in Hr; discriminate].
  assert (r.1.1 = true) as Hok
    by (revert Hr; vm_compute; intros [= <-]; reflexivity).
  exists r. split; [reflexivity|]. split; [exact Hok|].
  destruct (@X17_init_TRUE demo_parser (demo_os None [])
              (mk_capture_options [en0_configured; eth_configured; ble_configured])
              world0 r Hr Hok) as (argvs & _ & _ & Ht).
  exact Ht.
Defined.

Lemma X18_witness :
  exists r,
    @extcaps_init_initerfaces demo_parser os_second_tempfile_fails
      (mk_capture_options [en0_configured; eth_configured; ble_configured])
      world0 = Some r
    /\ exists (pre pre' : list interface_options) (o : interface_options)
              (suf : list interface_options),
         [en0_configured; eth_configured; ble_configured] = pre ++ o :: suf
         /\ opts_ifaces r.1.2 = pre' ++ o :: suf
         /\ if_type o = IF_EXTCAP.
Proof.
  destruct (@extcaps_init_initerfaces demo_parser os_second_tempfile_fails
              (mk_capture_options [en0_configured; eth_configured; ble_configured])
              world0) as [r|] eqn:Hr; [|vm_compute in Hr; discriminate].
  assert (r.1.1 = false) as Hok
    by (revert Hr; vm_compute; intros [= <-]; reflexivity).
  exists r. split; [reflexivity|].
  destruct (@X18_init_FALSE demo_parser os_second_tempfile_fails
              (mk_capture_options [en0_configured; eth_configured; ble_configured])
              world0 r Hr Hok)
    as (pre & pre' & o & suf & argvs & H1 & H2 & _ & H3 & _).
  exists pre, pre', o, suf. split; [exact H1|]. split; [exact H2|exact H3].
Defined.

Lemma X20_witness :
  fs world_running !! "/tmp/wireshark_extcap" = Some Fifo
  /\ fs (extcap_cleanup (mk_capture_options [eth_running]) world_running).2
       !! "/tmp/wireshark_extcap" = None.
Proof.
  split; [vm_compute; reflexivity|].
  destruct (X20_cleanup_removes_only_session_fifos
              (mk_capture_options [eth_running]) world_running
              "/tmp/wireshark_extcap") as (H & _).
  apply H. apply Exists_cons_hd. split; reflexivity.
Defined.

Lemma X21_witness :
  exists started,
    @extcaps_init_initerfaces demo_parser (demo_os None [])
      (mk_capture_options [en0_configured; eth_configured; ble_configured])
      world0 = Some started
    /\ started.1.1 = true
    /\ closed_pids (extcap_cleanup started.1.2 started.2).2
       = closed_pids world0 ++ valid_pids (opts_ifaces started.1.2).
Proof.
  destruct (@X21_init_then_cleanup demo_parser (demo_os None [])
              (mk_capture_options [en0_configured; eth_configured; ble_configured])
              world0) as (started & Hs & H1 & _ & H3).
  - intros k. simpl. lia.
  - intros k. simpl. discriminate.
  - intros p. reflexivity.
  - cbn [opts_ifaces].
    repeat constructor; intros t Ht; vm_compute in Ht; try discriminate.
    injection Ht as <-.
    repeat (constructor; [split; discriminate|]). constructor.
  - exists started. split; [exact Hs|]. split; [exact H1|exact H3].
Defined.


(** A session that has been started holds a table of freed strings:
    starting it again reads them, and has no result. *)
Example init_twice_reads_freed_strings :
  exists r,
    @extcaps_init_initerfaces demo_parser (demo_os None [])
      (mk_capture_options [ble_configured]) world0 = Some r
    /\ map extcap_args (opts_ifaces r.1.2)
       = [Some [(g_freed, g_freed); (g_freed, g_null)]]
    /\ @extcaps_init_initerfaces demo_parser (demo_os None []) r.1.2 r.2
       = None.
Proof. eexists. split; [vm_compute; reflexivity|]. vm_compute. done. Qed.
